(** * Resume matcher: keyword extraction, scoring and report assembly

    A shallow embedding of the two server programs of the repository:

    - the catalog-based server (stop words, technical-term catalog,
      multi-word terms, three title patterns), embedded in [Module Matcher];
    - the earlier keyword-only server [server.js], embedded in
      [Module Simple].

    Strings are sequences of UTF-16 code units, numbers that the code keeps
    in doubles are binary64 floats, the external summarization service is a
    function from the request prompt to an outcome, and [try]/[catch] is an
    explicit error type. *)

From Stdlib Require Import String Ascii NArith ZArith Bool Lia.
From Stdlib Require Import Floats Uint63 List Permutation Sorted.
Import ListNotations.

Set Implicit Arguments.
Set Warnings "-register-all".

(** ** JavaScript strings and the built-ins the servers call *)

Module JS.

(** A string is its sequence of UTF-16 code units. *)
Definition jsstring : Type := list N.

(** The code units of an ASCII literal of the source. *)
Definition lit (s : string) : jsstring :=
  map N_of_ascii (list_ascii_of_string s).

Fixpoint eqs (a b : jsstring) : bool :=
  match a, b with
  | [], [] => true
  | x :: a', y :: b' => N.eqb x y && eqs a' b'
  | _, _ => false
  end.

(** [Set.prototype.has] and [Array.prototype.includes] on strings. *)
Definition has (set : list jsstring) (w : jsstring) : bool :=
  existsb (eqs w) set.

Definition between (lo hi c : N) : bool := N.leb lo c && N.leb c hi.

Definition isDigit (c : N) : bool := between 48 57 c.
Definition isAsciiUpper (c : N) : bool := between 65 90 c.
Definition isAsciiLower (c : N) : bool := between 97 122 c.

(** [\w] without the [u] flag: ASCII letters, digits and the underscore. *)
Definition isWordChar (c : N) : bool :=
  isDigit c || isAsciiUpper c || isAsciiLower c || N.eqb c 95.

(** [\s], which is also what [trim] strips: WhiteSpace and LineTerminator. *)
Definition isWhiteSpace (c : N) : bool :=
  between 9 13 c || N.eqb c 32 || N.eqb c 160 || N.eqb c 5760
  || between 8192 8202 c || N.eqb c 8232 || N.eqb c 8233 || N.eqb c 8239
  || N.eqb c 8287 || N.eqb c 12288 || N.eqb c 65279.

Definition isLineTerminator (c : N) : bool :=
  N.eqb c 10 || N.eqb c 13 || N.eqb c 8232 || N.eqb c 8233.

(** [String.prototype.toLowerCase], unit by unit.  ASCII capitals move to
    their small letters; U+0130 and U+212A are the two non-ASCII characters
    whose lowercase form contains an ASCII letter.  Every other non-ASCII
    unit lowercases to non-ASCII units: the servers only ever compare the
    result against ASCII classes and ASCII catalog entries, for which those
    are interchangeable with the unit itself. *)
Definition lowerUnit (c : N) : list N :=
  if isAsciiUpper c then [c + 32]%N
  else if N.eqb c 304 then [105; 775]%N
  else if N.eqb c 8490 then [107]%N
  else [c].

Definition toLowerCase (s : jsstring) : jsstring := flat_map lowerUnit s.

Fixpoint dropWhile (p : N -> bool) (s : jsstring) : jsstring :=
  match s with
  | [] => []
  | c :: t => if p c then dropWhile p t else s
  end.

(** [String.prototype.trim]. *)
Definition trim (s : jsstring) : jsstring :=
  rev (dropWhile isWhiteSpace (rev (dropWhile isWhiteSpace s))).

Fixpoint startsWith (s prefix : jsstring) : bool :=
  match prefix, s with
  | [], _ => true
  | p :: prefix', c :: s' => N.eqb p c && startsWith s' prefix'
  | _ :: _, [] => false
  end.

(** [String.prototype.includes]. *)
Fixpoint includes (s sub : jsstring) : bool :=
  startsWith s sub ||
  match s with
  | [] => false
  | _ :: t => includes t sub
  end.

(** [s.replace(/\s+/g, ' ')]: every maximal run of whitespace becomes one
    space.  [inRun] tells that the previous unit was whitespace. *)
Fixpoint collapseWhitespace (inRun : bool) (s : jsstring) : jsstring :=
  match s with
  | [] => []
  | c :: t =>
      if isWhiteSpace c
      then if inRun then collapseWhitespace true t
           else 32%N :: collapseWhitespace true t
      else c :: collapseWhitespace false t
  end.

(** [s.split(/\s+/)].  [cur] is the token being read, reversed.  A string
    that starts or ends with whitespace has an empty first or last piece,
    and the empty string splits into one empty piece. *)
Fixpoint splitWhitespaceFrom (cur : jsstring) (inSep : bool) (s : jsstring)
  : list jsstring :=
  match s with
  | [] => [rev cur]
  | c :: t =>
      if isWhiteSpace c
      then if inSep then splitWhitespaceFrom [] true t
           else rev cur :: splitWhitespaceFrom [] true t
      else splitWhitespaceFrom (c :: cur) false t
  end.

Definition splitWhitespace (s : jsstring) : list jsstring :=
  splitWhitespaceFrom [] false s.

(** [s.split('.')] for a one-unit separator. *)
Fixpoint splitOnFrom (sep : N) (cur : jsstring) (s : jsstring)
  : list jsstring :=
  match s with
  | [] => [rev cur]
  | c :: t =>
      if N.eqb c sep then rev cur :: splitOnFrom sep [] t
      else splitOnFrom sep (c :: cur) t
  end.

Definition splitOn (sep : N) (s : jsstring) : list jsstring :=
  splitOnFrom sep [] s.

(** [s.substring(0, n)]. *)
Definition substring0 (n : nat) (s : jsstring) : jsstring := firstn n s.

(** The insertion order of a [Set] built from an array: first occurrences. *)
Fixpoint dedupFrom (seen : list jsstring) (l : list jsstring)
  : list jsstring :=
  match l with
  | [] => []
  | x :: t =>
      if has seen x then dedupFrom seen t
      else x :: dedupFrom (x :: seen) t
  end.

Definition dedup (l : list jsstring) : list jsstring := dedupFrom [] l.

(** *** Own property order of an ordinary object

    [Object.entries] lists array-index keys first, in ascending numeric
    order, then the other string keys in insertion order.  A key is an array
    index when it is the canonical decimal form of an integer below
    2^32 - 1. *)
Definition digitsValue (s : jsstring) : N :=
  fold_left (fun acc c => (acc * 10 + (c - 48))%N) s 0%N.

Definition isArrayIndex (s : jsstring) : bool :=
  match s with
  | [] => false
  | c :: t =>
      forallb isDigit s
      && (negb (N.eqb c 48) || match t with [] => true | _ => false end)
      && N.ltb (digitsValue s) 4294967295
  end.

Fixpoint insertIndexKey (A : Type) (e : jsstring * A)
  (l : list (jsstring * A)) : list (jsstring * A) :=
  match l with
  | [] => [e]
  | x :: t =>
      if N.leb (digitsValue (fst e)) (digitsValue (fst x)) then e :: l
      else x :: insertIndexKey e t
  end.

Definition ownEntries (A : Type) (inserted : list (jsstring * A))
  : list (jsstring * A) :=
  fold_right (@insertIndexKey A) []
    (filter (fun e => isArrayIndex (fst e)) inserted)
  ++ filter (fun e => negb (isArrayIndex (fst e))) inserted.

(** *** [Array.prototype.sort] with a consistent comparator

    The sort is stable, so for a comparator that is a total preorder the
    result is fixed by [before x y], "the comparator puts [x] strictly
    before [y]". *)
Section StableSort.
Variable A : Type.
Variable before : A -> A -> bool.

Fixpoint insertSorted (x : A) (l : list A) : list A :=
  match l with
  | [] => [x]
  | y :: t => if before y x then y :: insertSorted x t else x :: l
  end.

Definition stableSort (l : list A) : list A := fold_right insertSorted [] l.
End StableSort.

(** *** Numbers

    Array lengths enter double arithmetic exactly; [Math.round] is the
    nearest integer with ties toward +infinity, computed here from the exact
    value [(-1)^s * m * 2^e] of a finite double.  The servers only round
    quotients with a divisor of at least 1, so infinities and [NaN] do not
    reach it. *)
Definition ofLength (n : nat) : float :=
  PrimFloat.of_uint63 (Uint63.of_Z (Z.of_nat n)).

Definition Math_round (x : float) : Z :=
  match Prim2SF x with
  | S754_finite s m e =>
      let num := if s then Z.neg m else Z.pos m in
      match e with
      | Z.neg k => let d := Z.pow_pos 2 k in ((2 * num + d) / (2 * d))%Z
      | _ => (num * 2 ^ e)%Z
      end
  | _ => 0%Z
  end.

(** *** Errors and [try]/[catch] *)
Inductive JsError : Type := NetworkError | SyntaxError | TypeError.

Inductive Try (A : Type) : Type :=
| Returned (a : A)
| Thrown (e : JsError).

Arguments Thrown {A} e.

Definition bind (A B : Type) (c : Try A) (f : A -> Try B) : Try B :=
  match c with
  | Returned a => f a
  | Thrown e => Thrown e
  end.

Definition catch (A : Type) (body : Try A) (handler : JsError -> Try A)
  : Try A :=
  match body with
  | Returned a => Returned a
  | Thrown e => handler e
  end.

(** *** Regular expressions

    The fragment the patterns of the servers are written in: single-unit
    classes, concatenation, ordered alternation, greedy bounded repetition,
    one capturing group, and the line anchors of the [m] flag. *)
Inductive regex : Type :=
| Chr (p : N -> bool)
| Eps
| Cat (r1 r2 : regex)
| Alt (r1 r2 : regex)
| Rep (r : regex) (lo : nat) (hi : option nat)
| Group (r : regex)
| Bol
| Eol.

(** Backtracking in continuation-passing style, in the order of the
    ECMAScript matcher: the left alternative first, as many repetitions as
    possible first.  A matcher receives the unit before the position (for
    [^]), the rest of the input and the current value of group 1. *)
Section Backtracking.
Variable R : Type.

Definition cont : Type := option N -> jsstring -> option jsstring -> option R.
Definition matcher : Type :=
  option N -> jsstring -> option jsstring -> cont -> option R.

Definition hiAllows (hi : option nat) : bool :=
  match hi with
  | Some O => false
  | _ => true
  end.

(** [lo] and [hi] count the repetitions still required and still allowed.
    An iteration has to consume input: ECMAScript rejects an empty iteration
    once the minimum is reached, and no repeated body of the patterns below
    matches the empty string.  [fuel] one above the input length is
    therefore enough. *)
Fixpoint repeatGreedy (step : matcher) (fuel lo : nat) (hi : option nat)
  (prev : option N) (s : jsstring) (cap : option jsstring) (k : cont)
  : option R :=
  match fuel with
  | O => None
  | S fuel' =>
      let more :=
        if hiAllows hi
        then step prev s cap (fun prev' s' cap' =>
               if Nat.ltb (length s') (length s)
               then repeatGreedy step fuel' (Nat.pred lo) (option_map Nat.pred hi)
                      prev' s' cap' k
               else None)
        else None in
      match more with
      | Some res => Some res
      | None =>
          match lo with
          | O => k prev s cap
          | S _ => None
          end
      end
  end.

Fixpoint run (r : regex) : matcher :=
  fun prev s cap k =>
    match r with
    | Chr p =>
        match s with
        | c :: t => if p c then k (Some c) t cap else None
        | [] => None
        end
    | Eps => k prev s cap
    | Cat r1 r2 =>
        run r1 prev s cap (fun prev' s' cap' => run r2 prev' s' cap' k)
    | Alt r1 r2 =>
        match run r1 prev s cap k with
        | Some res => Some res
        | None => run r2 prev s cap k
        end
    | Rep r' lo hi => repeatGreedy (run r') (S (length s)) lo hi prev s cap k
    | Group r' =>
        run r' prev s cap (fun prev' s' _ =>
          k prev' s' (Some (firstn (length s - length s') s)))
    | Bol =>
        match prev with
        | None => k prev s cap
        | Some c => if isLineTerminator c then k prev s cap else None
        end
    | Eol =>
        match s with
        | [] => k prev s cap
        | c :: _ => if isLineTerminator c then k prev s cap else None
        end
    end.
End Backtracking.

(** [text.match(re)] for a regular expression without the [g] flag: the
    leftmost start at which the pattern matches.  The result is [match[1]],
    [None] standing for [undefined]. *)
Fixpoint searchFrom (r : regex) (prev : option N) (s : jsstring)
  : option (option jsstring) :=
  match run r prev s None (fun _ _ cap => Some cap) with
  | Some cap => Some cap
  | None =>
      match s with
      | [] => None
      | c :: t => searchFrom r (Some c) t
      end
  end.

Definition firstMatch (r : regex) (text : jsstring)
  : option (option jsstring) :=
  searchFrom r None text.

(** Canonicalization under the [i] flag (without [u]): a unit is compared
    through its uppercase form, and a non-ASCII unit never canonicalizes to
    an ASCII one. *)
Definition canonicalize (c : N) : N :=
  if isAsciiLower c then (c - 32)%N else c.

Definition chr (p : N) : regex := Chr (N.eqb p).
Definition chrI (p : N) : regex :=
  Chr (fun c => N.eqb (canonicalize c) (canonicalize p)).

Definition wordI (w : string) : regex :=
  fold_right (fun c r => Cat (chrI c) r) Eps (lit w).

Definition star (r : regex) : regex := Rep r 0 None.
Definition plus (r : regex) : regex := Rep r 1 None.
Definition opt (r : regex) : regex := Rep r 0 (Some 1).

(** Least number of units a match consumes, whether a pattern is free of
    groups, and whether every match of it leaves a non-empty group 1. *)
Fixpoint minLength (r : regex) : nat :=
  match r with
  | Chr _ => 1
  | Cat r1 r2 => minLength r1 + minLength r2
  | Alt r1 r2 => Nat.min (minLength r1) (minLength r2)
  | Rep r' lo _ => lo * minLength r'
  | Group r' => minLength r'
  | Eps | Bol | Eol => 0
  end.

Fixpoint groupFree (r : regex) : bool :=
  match r with
  | Cat r1 r2 | Alt r1 r2 => groupFree r1 && groupFree r2
  | Rep r' _ _ => groupFree r'
  | Group _ => false
  | Chr _ | Eps | Bol | Eol => true
  end.

Fixpoint capturing (r : regex) : bool :=
  match r with
  | Group r' => groupFree r' && Nat.ltb 0 (minLength r')
  | Cat r1 r2 => (capturing r1 && groupFree r2) || capturing r2
  | _ => false
  end.

End JS.

(** ** The report returned for one request *)

Module Report.
Import JS.

Record t : Type := make {
  matchScore : Z;
  matchLevel : jsstring;
  positionTitle : jsstring;
  company : jsstring;
  missingKeywords : list jsstring;
  skillsFound : list jsstring;
  improvements : list jsstring
}.

End Report.

(** ** The external summarization service *)

Module HF.
Import JS.

(** A parsed JSON value. *)
Inductive json : Type :=
| JNull
| JBool (b : bool)
| JNumber (x : float)
| JString (s : jsstring)
| JArray (items : list json)
| JObject (fields : list (jsstring * json)).

(** What [fetch] and [response.json()] can do: [fetch] rejects, or a
    response arrives with its [ok] flag and a body that is JSON
    ([Some data]) or not ([None], on which [response.json()] rejects). *)
Inductive Outcome : Type :=
| FetchRejected
| Responded (ok : bool) (body : option json).

(** Reading a property of a parsed object: the last of duplicate keys. *)
Fixpoint getProp (key : jsstring) (fields : list (jsstring * json))
  : option json :=
  match fields with
  | [] => None
  | (k, v) :: rest =>
      match getProp key rest with
      | Some later => Some later
      | None => if eqs k key then Some v else None
      end
  end.

(** [data[0]]: throws on [null], is [undefined] ([None]) on numbers and
    booleans, the first element of an array, the first unit of a string and
    the property ["0"] of an object. *)
Definition index0 (data : json) : Try (option json) :=
  match data with
  | JNull => Thrown TypeError
  | JArray items => Returned (hd_error items)
  | JObject fields => Returned (getProp (lit "0") fields)
  | JString (c :: _) => Returned (Some (JString [c]))
  | JString [] | JBool _ | JNumber _ => Returned None
  end.

(** [v?.summary_text]: only a parsed object can carry the property. *)
Definition summaryText (v : option json) : option json :=
  match v with
  | Some (JObject fields) => getProp (lit "summary_text") fields
  | _ => None
  end.

Definition truthy (v : option json) : bool :=
  match v with
  | None | Some JNull => false
  | Some (JBool b) => b
  | Some (JNumber x) =>
      negb (PrimFloat.eqb x 0%float) && PrimFloat.eqb x x
  | Some (JString s) =>
      match s with
      | [] => false
      | _ => true
      end
  | Some (JArray _) | Some (JObject _) => true
  end.

(** [summary.split('.').filter(s => s.trim().length > 10).slice(0, 3)]. *)
Definition suggestions (summary : jsstring) : list jsstring :=
  firstn 3
    (filter (fun s => Nat.ltb 10 (length (trim s))) (splitOn 46 summary)).

(** The body of the inner [try]: it leaves [improvements] as it is or
    overwrites it, and it may throw.  A truthy [summary_text] that is not a
    string has no callable [split]. *)
Definition summarize (o : Outcome) (improvements : list jsstring)
  : Try (list jsstring) :=
  match o with
  | FetchRejected => Thrown NetworkError
  | Responded false _ => Returned improvements
  | Responded true None => Thrown SyntaxError
  | Responded true (Some data) =>
      bind (index0 data) (fun first =>
        if truthy (summaryText first)
        then match summaryText first with
             | Some (JString s) =>
                 if Nat.ltb 0 (length (suggestions s))
                 then Returned (map (fun s => trim s ++ [46%N]) (suggestions s))
                 else Returned improvements
             | _ => Thrown TypeError
             end
        else Returned improvements)
  end.

(** The inner [try]/[catch]: whatever is thrown is logged and dropped. *)
Definition improvementsFrom (o : Outcome) (fallback : list jsstring)
  : Try (list jsstring) :=
  catch (summarize o fallback) (fun _ => Returned fallback).

(** The prompt sent with the request. *)
Definition prompt (resumeText jobDescription : jsstring) : jsstring :=
  lit "Resume analysis for job application:" ++ [10; 10]%N
  ++ lit "Job Requirements: " ++ substring0 200 jobDescription
  ++ [10; 10]%N
  ++ lit "Resume Summary: " ++ substring0 200 resumeText ++ [10; 10]%N
  ++ lit "Provide 3 brief improvement suggestions for the resume:".

End HF.

(** ** The term catalog *)

Module Catalog.
Import JS.
Local Open Scope string_scope.

Definition stopWords : list jsstring :=
  map lit
    [ "the"; "and"; "for"; "with"; "this"; "that"; "from"; "will"; "have";
      "has"; "are"; "was"; "were"; "been"; "being"; "but"; "not"; "can";
      "could"; "should"; "would"; "may"; "might"; "must"; "shall"; "our";
      "your"; "their"; "its"; "about"; "into"; "through"; "during";
      "before"; "after"; "above"; "below"; "between"; "under"; "again";
      "further"; "then"; "once"; "here"; "there"; "when"; "where"; "why";
      "how"; "all"; "both"; "each"; "few"; "more"; "most"; "other"; "some";
      "such"; "only"; "own"; "same"; "than"; "too"; "very"; "work";
      "working"; "experience"; "years"; "team"; "company"; "role";
      "position"; "responsibilities"; "requirements"; "skills"; "ability";
      "strong"; "good"; "excellent"; "knowledge"; "understanding";
      "including"; "required"; "preferred" ].

Definition technicalTerms : list jsstring :=
  map lit
    [ "javascript"; "python"; "java"; "typescript"; "c++"; "ruby"; "php";
      "swift"; "kotlin"; "go"; "rust"; "scala"; "r"; "matlab"; "perl";
      "shell"; "bash"; "react"; "angular"; "vue"; "svelte"; "html"; "css";
      "sass"; "less"; "webpack"; "nextjs"; "gatsby"; "tailwind";
      "bootstrap"; "jquery"; "redux"; "mobx"; "nodejs"; "node.js";
      "express"; "django"; "flask"; "spring"; "laravel"; "rails";
      "fastapi"; "nestjs"; "graphql"; "rest"; "api"; "microservices";
      "sql"; "mysql"; "postgresql"; "mongodb"; "redis"; "elasticsearch";
      "cassandra"; "dynamodb"; "oracle"; "sqlite"; "mariadb"; "nosql";
      "firebase"; "aws"; "azure"; "gcp"; "docker"; "kubernetes"; "jenkins";
      "gitlab"; "github"; "terraform"; "ansible"; "ci/cd"; "devops";
      "cloud"; "serverless"; "lambda"; "tensorflow"; "pytorch"; "keras";
      "scikit-learn"; "pandas"; "numpy"; "jupyter"; "machine learning";
      "deep learning"; "nlp"; "computer vision"; "data science"; "git";
      "jira"; "agile"; "scrum"; "kanban"; "testing"; "junit"; "jest";
      "cypress"; "selenium"; "tdd"; "bdd"; "linux"; "unix"; "nginx";
      "apache"; "leadership"; "communication"; "collaboration";
      "problem-solving"; "analytical"; "mentoring"; "project management";
      "stakeholder management" ].

Definition isStopWord (w : jsstring) : bool := has stopWords w.
Definition isTechnicalTerm (w : jsstring) : bool := has technicalTerms w.

End Catalog.

(** ** The catalog-based server *)

Module Matcher.
Import JS Catalog.

(** *** Keyword extraction *)

(** The units [/[^\w\s.-]/g] leaves in place. *)
Definition keptByNormalizer (c : N) : bool :=
  isWordChar c || isWhiteSpace c || N.eqb c 46 || N.eqb c 45.

Definition normalize (text : jsstring) : jsstring :=
  collapseWhitespace false
    (map (fun c => if keptByNormalizer c then c else 32%N)
       (toLowerCase text)).

(** Catalog entries with a space that occur in the normalized text, in
    catalog order. *)
Definition multiWordTerms (normalizedText : jsstring) : list jsstring :=
  filter (fun term => includes term [32%N] && includes normalizedText term)
    technicalTerms.

(** [/[\d+#.-]/.test(word)]. *)
Definition hasDigitOrSymbol (word : jsstring) : bool :=
  existsb (fun c => isDigit c || N.eqb c 43 || N.eqb c 35 || N.eqb c 46
                    || N.eqb c 45) word.

Definition keepWord (word : jsstring) : bool :=
  Nat.ltb 2 (length word)
  && negb (isStopWord word)
  && (isTechnicalTerm word || hasDigitOrSymbol word).

Definition words (normalizedText : jsstring) : list jsstring :=
  filter keepWord (splitWhitespace normalizedText).

Definition allTerms (normalizedText : jsstring) : list jsstring :=
  dedup (multiWordTerms normalizedText ++ words normalizedText).

(** [new RegExp(term, 'gi')]: a term is made of small letters, digits,
    underscores, hyphens, spaces and periods, and among these only the
    period is not a literal: it stands for any unit but a line
    terminator. *)
Definition termUnitMatches (p c : N) : bool :=
  if N.eqb p 46 then negb (isLineTerminator c)
  else N.eqb (canonicalize p) (canonicalize c).

Fixpoint termMatchesAt (term s : jsstring) : bool :=
  match term, s with
  | [], _ => true
  | p :: term', c :: s' => termUnitMatches p c && termMatchesAt term' s'
  | _ :: _, [] => false
  end.

(** The number of matches [text.match] returns under the [g] flag: matches
    are taken left to right and do not overlap.  [skip] units are still
    covered by the last match.  A term has at least 3 units. *)
Fixpoint countMatchesFrom (term : jsstring) (skip : nat) (s : jsstring)
  : nat :=
  match s with
  | [] => 0
  | _ :: t =>
      match skip with
      | S k => countMatchesFrom term k t
      | O =>
          if termMatchesAt term s
          then S (countMatchesFrom term (Nat.pred (length term)) t)
          else countMatchesFrom term 0 t
      end
  end.

Definition countOccurrences (normalizedText term : jsstring) : nat :=
  countMatchesFrom term 0 normalizedText.

(** [termCount], in the order the keys are written.  Each key is written
    once and never read back, and no term is the name of an inherited
    property: those have neither a digit nor one of the symbols, and none is
    in the catalog. *)
Definition termCount (normalizedText : jsstring) : list (jsstring * nat) :=
  map (fun term => (term, countOccurrences normalizedText term))
    (allTerms normalizedText).

(** The comparator returns a negative number: technical before
    non-technical, then the higher count first. *)
Definition rankedBefore (a b : jsstring * nat) : bool :=
  let aIsTech := isTechnicalTerm (fst a) in
  let bIsTech := isTechnicalTerm (fst b) in
  if aIsTech && negb bIsTech then true
  else if negb aIsTech && bIsTech then false
  else Nat.ltb (snd b) (snd a).

Definition extractKeywords (text : jsstring) : list jsstring :=
  let normalizedText := normalize text in
  map fst
    (firstn 30
       (stableSort rankedBefore (ownEntries (termCount normalizedText)))).

(** *** Scoring *)

Definition resumeSet (resumeKeywords : list jsstring) : list jsstring :=
  map toLowerCase resumeKeywords.

Definition matchedSkills (resumeKeywords jdKeywords : list jsstring)
  : list jsstring :=
  filter (fun jdKeyword =>
            has (resumeSet resumeKeywords) (toLowerCase jdKeyword))
    jdKeywords.

(** The local [missingKeywords], capped at 6; the report caps it again. *)
Definition missingKeywords (resumeKeywords jdKeywords : list jsstring)
  : list jsstring :=
  firstn 6
    (filter (fun jdKeyword =>
               negb (has (resumeSet resumeKeywords) (toLowerCase jdKeyword))
               && isTechnicalTerm (toLowerCase jdKeyword))
       jdKeywords).

Definition technicalMatches (resumeKeywords jdKeywords : list jsstring)
  : list jsstring :=
  filter (fun skill => isTechnicalTerm (toLowerCase skill))
    (matchedSkills resumeKeywords jdKeywords).

Definition technicalRequirements (jdKeywords : list jsstring)
  : list jsstring :=
  filter (fun keyword => isTechnicalTerm (toLowerCase keyword)) jdKeywords.

(** [Math.round((a / b) * scale)] on array lengths. *)
Definition roundedShare (a b : nat) (scale : float) : Z :=
  Math_round (PrimFloat.mul (PrimFloat.div (ofLength a) (ofLength b)) scale).

Definition matchScore (resumeKeywords jdKeywords : list jsstring) : Z :=
  let matched := matchedSkills resumeKeywords jdKeywords in
  let techMatches := technicalMatches resumeKeywords jdKeywords in
  let techReqs := technicalRequirements jdKeywords in
  let raw :=
    if Nat.ltb 0 (length techReqs)
    then roundedShare (length techMatches) (length techReqs) 100%float
    else roundedShare (length matched) (Nat.max (length jdKeywords) 1)
           85%float in
  Z.min raw 95.

Definition displaySkills (resumeKeywords jdKeywords : list jsstring)
  : list jsstring :=
  let matched := matchedSkills resumeKeywords jdKeywords in
  if Nat.ltb 0 (length matched)
  then firstn 8 matched
  else firstn 5
         (filter (fun k => isTechnicalTerm (toLowerCase k)) resumeKeywords).

Definition matchLevel (score : Z) : jsstring :=
  if Z.leb 80 score then lit "Strong Candidate Match"
  else if Z.leb 60 score then lit "Good Candidate Match"
  else if Z.leb 40 score then lit "Moderate Candidate Match"
  else lit "Potential Candidate Match".

(** *** Title and company *)

Definition whitespace : regex := Chr isWhiteSpace.

(** [[^\n,.]]. *)
Definition fieldUnit : regex :=
  Chr (fun c => negb (N.eqb c 10 || N.eqb c 44 || N.eqb c 46)).

Definition capital : regex := Chr isAsciiUpper.
Definition small : regex := Chr isAsciiLower.

Definition titlePatterns : list regex :=
  [ (* /(?:position|role|title|job):\s*([^\n,.]+)/i *)
    Cat (Alt (wordI "position")
           (Alt (wordI "role") (Alt (wordI "title") (wordI "job"))))
      (Cat (chr 58) (Cat (star whitespace) (Group (plus fieldUnit))));
    (* /(?:hiring|seeking|looking for)\s+(?:a|an)?\s*([^\n,.]{10,50})/i *)
    Cat (Alt (wordI "hiring") (Alt (wordI "seeking") (wordI "looking for")))
      (Cat (plus whitespace)
         (Cat (opt (Alt (wordI "a") (wordI "an")))
            (Cat (star whitespace) (Group (Rep fieldUnit 10 (Some 50))))));
    (* /^([A-Z][a-z]+(?:\s+[A-Z][a-z]+){1,4})\s*$/m *)
    Cat Bol
      (Cat (Group
              (Cat capital
                 (Cat (plus small)
                    (Rep (Cat (plus whitespace) (Cat capital (plus small)))
                       1 (Some 4)))))
         (Cat (star whitespace) Eol)) ].

Definition companyPatterns : list regex :=
  [ (* /(?:company|at|employer):\s*([^\n,.]+)/i *)
    Cat (Alt (wordI "company") (Alt (wordI "at") (wordI "employer")))
      (Cat (chr 58) (Cat (star whitespace) (Group (plus fieldUnit))));
    (* /(?:join|work at|careers at)\s+([^\n,.]{2,30})/i *)
    Cat (Alt (wordI "join") (Alt (wordI "work at") (wordI "careers at")))
      (Cat (plus whitespace) (Group (Rep fieldUnit 2 (Some 30)))) ].

(** The [for] loop over the patterns: the first pattern that matches with a
    truthy (non-empty) [match[1]] decides, and the loop breaks. *)
Fixpoint firstCapture (patterns : list regex) (text fallback : jsstring)
  : jsstring :=
  match patterns with
  | [] => fallback
  | pattern :: rest =>
      match firstMatch pattern text with
      | Some (Some (c :: g)) => trim (c :: g)
      | _ => firstCapture rest text fallback
      end
  end.

Definition positionTitle (jobDescription : jsstring) : jsstring :=
  firstCapture titlePatterns jobDescription (lit "Target Position").

Definition company (jobDescription : jsstring) : jsstring :=
  firstCapture companyPatterns jobDescription (lit "Target Company").

(** *** The analysis *)

Definition fallbackImprovements : list jsstring :=
  map lit
    [ "Add quantifiable metrics to your achievements (e.g., 'Increased performance by 40%', 'Led team of 5 developers')"%string;
      "Include more technical keywords from the job description in your skills and experience sections"%string;
      "Highlight projects or experiences that directly relate to the key responsibilities mentioned in the job description"%string ].

(** [fetch] is the summarization service as this request sees it: the
    outcome of posting a prompt.  The outer [try] rethrows what it
    catches. *)
Definition analyzeWithHuggingFace (fetch : jsstring -> HF.Outcome)
  (resumeText jobDescription : jsstring) : Try Report.t :=
  catch
    (let resumeKeywords := extractKeywords resumeText in
     let jdKeywords := extractKeywords jobDescription in
     let score := matchScore resumeKeywords jdKeywords in
     bind (HF.improvementsFrom
             (fetch (HF.prompt resumeText jobDescription))
             fallbackImprovements)
       (fun improvements =>
          Returned
            {| Report.matchScore := score;
               Report.matchLevel := matchLevel score;
               Report.positionTitle := positionTitle jobDescription;
               Report.company := company jobDescription;
               Report.missingKeywords :=
                 firstn 5 (missingKeywords resumeKeywords jdKeywords);
               Report.skillsFound :=
                 displaySkills resumeKeywords jdKeywords;
               Report.improvements := improvements |}))
    (fun error => Thrown error).

End Matcher.

(** ** The keyword-only server, [server.js] *)

Module Simple.
Import JS.

(** [text.toLowerCase().replace(/[^\w\s]/g, ' ').split(/\s+/)], words of
    more than three units. *)
Definition words (text : jsstring) : list jsstring :=
  filter (fun word => Nat.ltb 3 (length word))
    (splitWhitespace
       (map (fun c => if isWordChar c || isWhiteSpace c then c else 32%N)
          (toLowerCase text))).

(** What [wordCount] holds under a key.  [wordCount] is an ordinary object:
    reading a key it does not own yet gives [undefined], except that
    [wordCount["constructor"]] gives the inherited function [Object].  Then
    [(wordCount[word] || 0) + 1] is the string
    ["function Object() { [native code] }1"], it is stored under the key,
    and every further occurrence of the word appends another ["1"]. *)
Inductive Stored : Type :=
| Count (n : nat)
| FunctionText (ones : nat).

Definition firstWrite (word : jsstring) : Stored :=
  if eqs word (lit "constructor") then FunctionText 1 else Count 1.

Definition nextWrite (stored : Stored) : Stored :=
  match stored with
  | Count n => Count (S n)
  | FunctionText ones => FunctionText (S ones)
  end.

(** [wordCount[word] = (wordCount[word] || 0) + 1], keys in the order they
    are first written. *)
Fixpoint bump (word : jsstring) (wordCount : list (jsstring * Stored))
  : list (jsstring * Stored) :=
  match wordCount with
  | [] => [(word, firstWrite word)]
  | (k, v) :: rest =>
      if eqs k word then (k, nextWrite v) :: rest
      else (k, v) :: bump word rest
  end.

(** Reading [wordCount["__proto__"]] yields the prototype, and the
    assignment of the resulting string to [__proto__] is ignored: the word
    never becomes a key. *)
Definition wordCount (ws : list jsstring) : list (jsstring * Stored) :=
  fold_left (fun acc word => bump word acc)
    (filter (fun w => negb (eqs w (lit "__proto__"))) ws) [].

(** [b[1] - a[1]] is negative.  With a string on either side the difference
    is [NaN], which [sort] takes for [+0]. *)
Definition countedBefore (a b : jsstring * Stored) : bool :=
  match snd a, snd b with
  | Count n, Count m => Nat.ltb m n
  | _, _ => false
  end.

Definition counts (entries : list (jsstring * Stored)) : list nat :=
  flat_map (fun e => match snd e with Count n => [n] | FunctionText _ => [] end)
    entries.

Definition hasFunctionText (entries : list (jsstring * Stored)) : bool :=
  existsb
    (fun e => match snd e with FunctionText _ => true | Count _ => false end)
    entries.

(** The comparator is consistent on the entries unless a string compares
    equal to two counts that differ. *)
Definition consistent (entries : list (jsstring * Stored)) : bool :=
  negb (hasFunctionText entries)
  || match counts entries with
     | [] => true
     | n :: rest => forallb (Nat.eqb n) rest
     end.

Section Engine.

(** With a comparator that is not consistent the order [sort] produces is
    left to the engine: [engineSort] is what the engine in use does then. *)
Variable engineSort : list (jsstring * Stored) -> list (jsstring * Stored).

Definition sortEntries (entries : list (jsstring * Stored))
  : list (jsstring * Stored) :=
  if consistent entries then stableSort countedBefore entries
  else engineSort entries.

Definition extractKeywords (text : jsstring) : list jsstring :=
  map fst
    (firstn 20 (sortEntries (ownEntries (wordCount (words text))))).

Definition matchedSkills (resumeKeywords jdKeywords : list jsstring)
  : list jsstring :=
  firstn 6 (filter (fun skill => has jdKeywords skill) resumeKeywords).

Definition missingKeywords (resumeKeywords jdKeywords : list jsstring)
  : list jsstring :=
  firstn 5 (filter (fun skill => negb (has resumeKeywords skill)) jdKeywords).

(** [random] is the value [Math.random()] returns in this evaluation. *)
Definition matchScore (resumeKeywords jdKeywords : list jsstring)
  (random : float) : Z :=
  Z.min
    (Math_round
       (PrimFloat.add
          (PrimFloat.mul
             (PrimFloat.div
                (ofLength (length (matchedSkills resumeKeywords jdKeywords)))
                (ofLength (Nat.max (length jdKeywords) 1)))
             100%float)
          (PrimFloat.mul random 10%float)))
    95.

Definition matchLevel (score : Z) : jsstring :=
  if Z.leb 80 score then lit "Strong Candidate Match"
  else if Z.leb 60 score then lit "Good Candidate Match"
  else if Z.leb 40 score then lit "Moderate Candidate Match"
  else lit "Weak Candidate Match".

(** [/(?:position|role|title|job):\s*([^\n,.]+)/i] *)
Definition titlePattern : regex :=
  Cat (Alt (wordI "position")
         (Alt (wordI "role") (Alt (wordI "title") (wordI "job"))))
    (Cat (chr 58)
       (Cat (star Matcher.whitespace) (Group (plus Matcher.fieldUnit)))).

(** [/(?:company|at|employer):\s*([^\n,.]+)/i] *)
Definition companyPattern : regex :=
  Cat (Alt (wordI "company") (Alt (wordI "at") (wordI "employer")))
    (Cat (chr 58)
       (Cat (star Matcher.whitespace) (Group (plus Matcher.fieldUnit)))).

(** [m ? m[1].trim() : fallback]; [trim] on [undefined] would throw. *)
Definition captureOr (pattern : regex) (text fallback : jsstring)
  : Try jsstring :=
  match firstMatch pattern text with
  | None => Returned fallback
  | Some (Some g) => Returned (trim g)
  | Some None => Thrown TypeError
  end.

Definition fallbackImprovements : list jsstring :=
  map lit
    [ "Quantify your achievements with specific metrics and numbers"%string;
      "Add more keywords from the job description to your skills section"%string;
      "Highlight relevant experience that matches the job requirements"%string ].

Definition analyzeWithHuggingFace (fetch : jsstring -> HF.Outcome)
  (random : float) (resumeText jobDescription : jsstring)
  : Try Report.t :=
  catch
    (let resumeKeywords := extractKeywords resumeText in
     let jdKeywords := extractKeywords jobDescription in
     let matched := matchedSkills resumeKeywords jdKeywords in
     let missing := missingKeywords resumeKeywords jdKeywords in
     let score := matchScore resumeKeywords jdKeywords random in
     bind (HF.improvementsFrom
             (fetch (HF.prompt resumeText jobDescription))
             fallbackImprovements)
       (fun improvements =>
     bind (captureOr titlePattern jobDescription
             (lit "Target Position"))
       (fun positionTitle =>
     bind (captureOr companyPattern jobDescription
             (lit "Target Company"))
       (fun company =>
          Returned
            {| Report.matchScore := score;
               Report.matchLevel := matchLevel score;
               Report.positionTitle := positionTitle;
               Report.company := company;
               Report.missingKeywords := firstn 4 missing;
               Report.skillsFound := matched;
               Report.improvements := improvements |}))))
    (fun error => Thrown error).

End Engine.

End Simple.

(** ** Notions the statements below are written with *)

Module Spec.
Import JS.

(** The class [[a-z0-9 .+#-]]. *)
Definition claimedUnit (c : N) : bool :=
  isAsciiLower c || isDigit c || N.eqb c 32 || N.eqb c 46 || N.eqb c 43
  || N.eqb c 35 || N.eqb c 45.

(** The class [[a-z0-9_ .+#-]]. *)
Definition amendedUnit (c : N) : bool := claimedUnit c || N.eqb c 95.

(** The class [[a-z0-9_ .-]]. *)
Definition normalizedUnit (c : N) : bool :=
  isAsciiLower c || isDigit c || N.eqb c 95 || N.eqb c 32 || N.eqb c 46
  || N.eqb c 45.

Definition occurrences (c : N) (s : jsstring) : nat :=
  count_occ N.eq_dec s c.

(** No two neighbouring units are both whitespace. *)
Fixpoint noWhitespaceRun (s : jsstring) : bool :=
  match s with
  | [] => true
  | a :: t =>
      match t with
      | [] => true
      | b :: _ => negb (isWhiteSpace a && isWhiteSpace b) && noWhitespaceRun t
      end
  end.

(** [l1] is [l2] with some elements left out, the order kept. *)
Inductive Subsequence (A : Type) : list A -> list A -> Prop :=
| sub_nil : Subsequence [] []
| sub_skip (x : A) (l1 l2 : list A) :
    Subsequence l1 l2 -> Subsequence l1 (x :: l2)
| sub_keep (x : A) (l1 l2 : list A) :
    Subsequence l1 l2 -> Subsequence (x :: l1) (x :: l2).

(** The nearest integer to [num / den], ties upward. *)
Definition roundHalfUp (num den : Z) : Z := ((2 * num + den) / (2 * den))%Z.

(** A pattern matches somewhere in a text, and the first group of its
    leftmost match. *)
Definition matchesIn (text : jsstring) (pattern : regex) : Prop :=
  firstMatch pattern text <> None.

Definition group1 (pattern : regex) (text : jsstring) : jsstring :=
  match firstMatch pattern text with
  | Some (Some g) => g
  | _ => []
  end.

(** What one match of a pattern does to the rest of the input and to
    group 1, whichever way the matcher backtracks (anchors are not
    checked). *)
Inductive Consumes :
  regex -> jsstring * option jsstring -> jsstring * option jsstring -> Prop :=
| consumes_chr (p : N -> bool) (c : N) (t : jsstring)
    (cap : option jsstring) :
    p c = true -> Consumes (Chr p) (c :: t, cap) (t, cap)
| consumes_eps (a : jsstring * option jsstring) : Consumes Eps a a
| consumes_bol (a : jsstring * option jsstring) : Consumes Bol a a
| consumes_eol (a : jsstring * option jsstring) : Consumes Eol a a
| consumes_cat (r1 r2 : regex) (a b c : jsstring * option jsstring) :
    Consumes r1 a b -> Consumes r2 b c -> Consumes (Cat r1 r2) a c
| consumes_alt_l (r1 r2 : regex) (a b : jsstring * option jsstring) :
    Consumes r1 a b -> Consumes (Alt r1 r2) a b
| consumes_alt_r (r1 r2 : regex) (a b : jsstring * option jsstring) :
    Consumes r2 a b -> Consumes (Alt r1 r2) a b
| consumes_rep_stop (r : regex) (hi : option nat)
    (a : jsstring * option jsstring) :
    Consumes (Rep r 0 hi) a a
| consumes_rep_more (r : regex) (lo : nat) (hi : option nat)
    (a b c : jsstring * option jsstring) :
    Consumes r a b ->
    Consumes (Rep r (Nat.pred lo) (option_map Nat.pred hi)) b c ->
    Consumes (Rep r lo hi) a c
| consumes_group (r : regex) (s s' : jsstring) (cap cap' : option jsstring) :
    Consumes r (s, cap) (s', cap') ->
    Consumes (Group r) (s, cap)
      (s', Some (firstn (length s - length s') s)).

(** A matcher that succeeds has called its continuation after one match
    of the pattern. *)
Definition CallsBack (R : Type) (r : regex) (step : matcher R) : Prop :=
  forall prev s cap (k : cont R) res,
    step prev s cap k = Some res ->
    exists prev' s' cap',
      k prev' s' cap' = Some res /\ Consumes r (s, cap) (s', cap').

(** The summarization call succeeded with the summary text [s]: the
    response is [ok], its body is JSON whose element [0] is an object, and
    the [summary_text] of that object is the non-empty string [s]. *)
Inductive Summarized : HF.Outcome -> jsstring -> Prop :=
| summarized_array (fields : list (jsstring * HF.json))
    (others : list HF.json) (s : jsstring) :
    HF.getProp (lit "summary_text") fields = Some (HF.JString s) ->
    s <> [] ->
    Summarized
      (HF.Responded true (Some (HF.JArray (HF.JObject fields :: others)))) s
| summarized_object (top fields : list (jsstring * HF.json)) (s : jsstring) :
    HF.getProp (lit "0") top = Some (HF.JObject fields) ->
    HF.getProp (lit "summary_text") fields = Some (HF.JString s) ->
    s <> [] ->
    Summarized (HF.Responded true (Some (HF.JObject top))) s.

(** The sentence fragments of a summary that are kept: more than 10 units
    after trimming. *)
Definition survivingFragments (summary : jsstring) : list jsstring :=
  filter (fun s => Nat.ltb 10 (length (trim s))) (splitOn 46 summary).

(** [Math.round((a / b) * scale)] in doubles against the exact rounding of
    [k * a / b], and the table of that comparison for all [a <= b] with
    [1 <= b <= bound], leaving out the pairs [skip] selects. *)
Definition shareAgrees (scale : float) (k : Z) (a b : nat) : bool :=
  Z.eqb (Matcher.roundedShare a b scale)
    (roundHalfUp (k * Z.of_nat a) (Z.of_nat b)).

Definition shareTable (scale : float) (k : Z) (bound : nat)
  (skip : nat -> nat -> bool) : bool :=
  forallb
    (fun b => forallb (fun a => skip a b || shareAgrees scale k a b)
                (seq 0 (S b)))
    (seq 1 bound).

(** The ratio [a / b] is seven tenths. *)
Definition sevenTenths (a b : nat) : bool := Nat.eqb (10 * a) (7 * b).

(** The summary text of a successful call, computed. *)
Definition summaryOf (o : HF.Outcome) : option jsstring :=
  match o with
  | HF.Responded true (Some data) =>
      match HF.index0 data with
      | Returned first =>
          match HF.summaryText first with
          | Some (HF.JString (c :: s)) => Some (c :: s)
          | _ => None
          end
      | Thrown _ => None
      end
  | _ => None
  end.

(** What the inner [try]/[catch] leaves in [improvements]. *)
Definition improvementsOf (o : HF.Outcome) (fallback : list jsstring)
  : list jsstring :=
  match HF.summarize o fallback with
  | Returned l => l
  | Thrown _ => fallback
  end.

(** The report without its [improvements]. *)
Definition scoredFields (rep : Report.t)
  : Z * jsstring * jsstring * jsstring * list jsstring * list jsstring :=
  (Report.matchScore rep, Report.matchLevel rep, Report.positionTitle rep,
   Report.company rep, Report.missingKeywords rep, Report.skillsFound rep).

End Spec.

(** ** The upload route *)

Module Server.
Import JS.

(** [req.file] as multer stores it in memory. *)
Record Upload : Type := {
  mimetype : jsstring;
  buffer : list N
}.

(** [req.body.jobDescription] as the handler reads it: missing, one text,
    or a value that is not a string (a repeated form field arrives as an
    array), which is truthy and has no [toLowerCase]. *)
Inductive Field : Type :=
| FieldAbsent
| FieldText (s : jsstring)
| FieldOther.

Record Request : Type := {
  file : option Upload;
  jobDescription : Field
}.

(** [error.message]: a message the server wrote itself, or the engine's
    message of an error thrown inside the analysis. *)
Inductive Details : Type :=
| Message (s : jsstring)
| EngineMessage (e : JsError).

Inductive Body : Type :=
| ErrorBody (error : jsstring) (details : option Details)
| ReportBody (rep : Report.t).

Record Response : Type := {
  status : nat;
  body : Body
}.

(** The [fileFilter] of the upload middleware. *)
Definition allowedTypes : list jsstring :=
  [ lit "application/pdf";
    lit "application/vnd.openxmlformats-officedocument.wordprocessingml.document" ].

Definition fileFilter (upload : Upload) : bool :=
  has allowedTypes (mimetype upload).

(** [extractPDF] and [extractDOCX]: the parsing library yields the text or
    fails ([None]); whatever it failed with is replaced by the server's own
    error. *)
Definition extractPDF (pdf : list N -> option jsstring) (buf : list N)
  : jsstring + Details :=
  match pdf buf with
  | Some text => inl text
  | None => inr (Message (lit "Failed to parse PDF"))
  end.

Definition extractDOCX (mammoth : list N -> option jsstring) (buf : list N)
  : jsstring + Details :=
  match mammoth buf with
  | Some value => inl value
  | None => inr (Message (lit "Failed to parse DOCX"))
  end.

Definition failure (details : Details) : Response :=
  {| status := 500;
     body := ErrorBody (lit "Failed to analyze resume") (Some details) |}.

(** The handler of [POST /api/analyze], for either server: [analyze] is its
    [analyzeWithHuggingFace] on two texts. *)
Definition analyzeRoute (pdf mammoth : list N -> option jsstring)
  (analyze : jsstring -> jsstring -> Try Report.t) (req : Request)
  : Response :=
  match file req with
  | None =>
      {| status := 400;
         body := ErrorBody (lit "No resume file uploaded") None |}
  | Some upload =>
      match jobDescription req with
      | FieldAbsent | FieldText [] =>
          {| status := 400;
             body := ErrorBody (lit "Job description is required") None |}
      | description =>
          match (if eqs (mimetype upload) (lit "application/pdf")
                 then extractPDF pdf (buffer upload)
                 else extractDOCX mammoth (buffer upload)) with
          | inr details => failure details
          | inl resumeText =>
              match description with
              | FieldText text =>
                  match analyze resumeText text with
                  | Returned results =>
                      {| status := 200; body := ReportBody results |}
                  | Thrown e => failure (EngineMessage e)
                  end
              | _ => failure (EngineMessage TypeError)
              end
          end
      end
  end.

(** The route of the catalog-based server. *)
Definition analyzeEndpoint (pdf mammoth : list N -> option jsstring)
  (fetch : jsstring -> HF.Outcome) (req : Request) : Response :=
  analyzeRoute pdf mammoth (Matcher.analyzeWithHuggingFace fetch) req.

End Server.

(** ** Further notions *)

Module Notions.
Import JS.

(** Every unit a pattern can consume satisfies [P]. *)
Fixpoint unitsSatisfy (P : N -> Prop) (r : regex) : Prop :=
  match r with
  | Chr p => forall c, p c = true -> P c
  | Cat r1 r2 | Alt r1 r2 => unitsSatisfy P r1 /\ unitsSatisfy P r2
  | Rep r' _ _ | Group r' => unitsSatisfy P r'
  | Eps | Bol | Eol => True
  end.

(** Every unit the first group of a pattern can hold satisfies [P]. *)
Fixpoint groupSatisfies (P : N -> Prop) (r : regex) : Prop :=
  match r with
  | Group r' => groupFree r' = true /\ unitsSatisfy P r'
  | Cat r1 r2 =>
      (groupSatisfies P r1 /\ groupFree r2 = true) \/ groupSatisfies P r2
  | _ => False
  end.

(** [sub] occurs in [s]. *)
Definition Occurs (sub s : jsstring) : Prop :=
  exists before after, s = before ++ sub ++ after.

(** The order [sort] leaves the entries of [termCount] in. *)
Definition rankedNotAfter (a b : jsstring * nat) : Prop :=
  Matcher.rankedBefore b a = false.

(** What [sort] does whatever order the engine settles on: it rearranges
    the elements of the array. *)
Definition Rearranges (A : Type) (sort : list A -> list A) : Prop :=
  forall l, Permutation (sort l) l.

End Notions.

Import JS Catalog Spec Notions.

(** The catalogs are looked up, never unfolded, in the proofs below;
    evaluation on concrete texts goes through [vm_compute]. *)
Opaque technicalTerms stopWords.

(** Membership in a concrete list, after evaluation. *)
Ltac member := vm_compute; repeat (first [left; reflexivity | right]).

(** ** Units and strings *)

Lemma eqs_iff (a b : jsstring) : eqs a b = true <-> a = b.
Proof.
  revert b.
  induction a as [|x a IH]; intros [|y b]; simpl; split; try easy.
  - rewrite andb_true_iff, N.eqb_eq, IH. now intros [-> ->].
  - intros H. injection H as -> ->. rewrite N.eqb_refl. now apply IH.
Qed.

Lemma has_iff (set : list jsstring) (w : jsstring) :
  has set w = true <-> In w set.
Proof.
  unfold has. rewrite existsb_exists. split.
  - intros (x & Hin & Heq). apply eqs_iff in Heq. now subst.
  - intros Hin. exists w. split; [assumption | now apply eqs_iff].
Qed.

Lemma has_false_iff (set : list jsstring) (w : jsstring) :
  has set w = false <-> ~ In w set.
Proof.
  rewrite <- has_iff. now destruct (has set w).
Qed.

Lemma between_iff (lo hi c : N) :
  between lo hi c = true <-> (lo <= c <= hi)%N.
Proof.
  unfold between. now rewrite andb_true_iff, !N.leb_le.
Qed.

Lemma between_false_iff (lo hi c : N) :
  between lo hi c = false <-> (c < lo \/ hi < c)%N.
Proof.
  unfold between. rewrite andb_false_iff, !N.leb_gt. tauto.
Qed.

(** Lowercasing leaves no ASCII capital behind. *)
Lemma lowerUnit_not_upper (c : N) :
  Forall (fun d => isAsciiUpper d = false) (lowerUnit c).
Proof.
  unfold lowerUnit.
  destruct (isAsciiUpper c) eqn:Hup.
  - apply between_iff in Hup. repeat constructor.
    apply between_false_iff. lia.
  - destruct (N.eqb c 304); [repeat constructor|].
    destruct (N.eqb c 8490); repeat constructor. exact Hup.
Qed.

Lemma toLowerCase_not_upper (s : jsstring) :
  Forall (fun d => isAsciiUpper d = false) (toLowerCase s).
Proof.
  unfold toLowerCase. induction s as [|c s IH]; simpl.
  - constructor.
  - apply Forall_app. split; [apply lowerUnit_not_upper | exact IH].
Qed.

(** A unit of the normalized alphabet is its own lowercase form. *)
Lemma lowerUnit_normalized (c : N) :
  normalizedUnit c = true -> lowerUnit c = [c].
Proof.
  unfold normalizedUnit, lowerUnit, isAsciiLower, isDigit, isAsciiUpper.
  rewrite !orb_true_iff, !between_iff, !N.eqb_eq. intros H.
  destruct (between 65 90 c) eqn:Hup.
  - apply between_iff in Hup. lia.
  - destruct (N.eqb_spec c 304); [lia|].
    destruct (N.eqb_spec c 8490); [lia|]. reflexivity.
Qed.

Lemma toLowerCase_normalized (s : jsstring) :
  Forall (fun c => normalizedUnit c = true) s -> toLowerCase s = s.
Proof.
  unfold toLowerCase. induction 1 as [|c s Hc _ IH]; simpl.
  - reflexivity.
  - rewrite (lowerUnit_normalized _ Hc), IH. reflexivity.
Qed.

(** ** The normalizer *)

Lemma replaced_unit (c : N) :
  isAsciiUpper c = false ->
  let d := if Matcher.keptByNormalizer c then c else 32%N in
  normalizedUnit d = true \/ isWhiteSpace d = true.
Proof.
  intros Hup d. subst d.
  destruct (Matcher.keptByNormalizer c) eqn:Hkept; [|now left].
  destruct (isWhiteSpace c) eqn:Hws; [now right|]. left.
  unfold Matcher.keptByNormalizer, isWordChar in Hkept.
  rewrite Hup, Hws in Hkept. unfold normalizedUnit.
  destruct (isDigit c), (isAsciiLower c), (N.eqb c 95), (N.eqb c 32),
    (N.eqb c 46), (N.eqb c 45); simpl in *; congruence.
Qed.

Lemma collapse_class (inRun : bool) (s : jsstring) :
  Forall (fun c => normalizedUnit c = true \/ isWhiteSpace c = true) s ->
  Forall (fun c => normalizedUnit c = true) (collapseWhitespace inRun s).
Proof.
  intros H. revert inRun.
  induction H as [|c s Hc _ IH]; intros inRun; simpl.
  - constructor.
  - destruct (isWhiteSpace c) eqn:Hws.
    + destruct inRun; [apply IH | constructor; [reflexivity | apply IH]].
    + constructor; [|apply IH]. destruct Hc as [Hc | Hc]; congruence.
Qed.

(** The output alphabet of the normalizer is [[a-z0-9_ .-]]. *)
Lemma normalize_alphabet (text : jsstring) :
  Forall (fun c => normalizedUnit c = true) (Matcher.normalize text).
Proof.
  unfold Matcher.normalize. apply collapse_class.
  apply Forall_map.
  eapply Forall_impl; [|apply toLowerCase_not_upper].
  intros c Hup. now apply replaced_unit.
Qed.

Lemma occurrences_app (c : N) (s t : jsstring) :
  occurrences c (s ++ t) = occurrences c s + occurrences c t.
Proof. unfold occurrences. apply count_occ_app. Qed.

Lemma occurrences_lowerUnit (c x : N) :
  (c < 65)%N -> occurrences c (lowerUnit x) = occurrences c [x].
Proof.
  intros Hc. unfold occurrences, lowerUnit.
  destruct (isAsciiUpper x) eqn:Hup.
  - apply between_iff in Hup. cbn [count_occ].
    destruct (N.eq_dec (x + 32) c), (N.eq_dec x c); lia.
  - destruct (N.eqb_spec x 304) as [->|_].
    + cbn [count_occ].
      destruct (N.eq_dec 105 c), (N.eq_dec 775 c), (N.eq_dec 304 c); lia.
    + destruct (N.eqb_spec x 8490) as [->|_]; [|reflexivity].
      cbn [count_occ]. destruct (N.eq_dec 107 c), (N.eq_dec 8490 c); lia.
Qed.

Lemma occurrences_toLowerCase (c : N) (s : jsstring) :
  (c < 65)%N -> occurrences c (toLowerCase s) = occurrences c s.
Proof.
  intros Hc. unfold toLowerCase. induction s as [|x s IH]; cbn [flat_map].
  - reflexivity.
  - rewrite occurrences_app, IH, (occurrences_lowerUnit x Hc).
    change (x :: s) with ([x] ++ s). now rewrite occurrences_app.
Qed.

Lemma occurrences_replaced (c : N) (s : jsstring) :
  Matcher.keptByNormalizer c = true -> c <> 32%N ->
  occurrences c
    (map (fun x => if Matcher.keptByNormalizer x then x else 32%N) s)
  = occurrences c s.
Proof.
  intros Hkept Hne. unfold occurrences.
  induction s as [|x s IH]; cbn [map count_occ]; [reflexivity|].
  destruct (Matcher.keptByNormalizer x) eqn:Hx.
  - destruct (N.eq_dec x c); now rewrite IH.
  - destruct (N.eq_dec 32 c) as [E|_]; [congruence|].
    destruct (N.eq_dec x c) as [E|_]; [congruence | exact IH].
Qed.

Lemma occurrences_collapse (c : N) (inRun : bool) (s : jsstring) :
  isWhiteSpace c = false ->
  occurrences c (collapseWhitespace inRun s) = occurrences c s.
Proof.
  intros Hc. unfold occurrences. revert inRun.
  induction s as [|x s IH]; intros inRun;
    cbn [collapseWhitespace count_occ]; [reflexivity|].
  destruct (isWhiteSpace x) eqn:Hx.
  - destruct (N.eq_dec x c) as [E|_]; [congruence|].
    destruct inRun; cbn [count_occ]; [apply IH|].
    destruct (N.eq_dec 32 c) as [E|_]; [|apply IH].
    subst c. discriminate Hc.
  - cbn [count_occ]. destruct (N.eq_dec x c); now rewrite IH.
Qed.

(** A unit below ['A'] that the normalizer keeps and that is not whitespace
    occurs in the output as often as in the input. *)
Lemma normalize_keeps (c : N) (text : jsstring) :
  (c < 65)%N -> Matcher.keptByNormalizer c = true ->
  isWhiteSpace c = false ->
  occurrences c (Matcher.normalize text) = occurrences c text.
Proof.
  intros Hlt Hkept Hws. unfold Matcher.normalize.
  rewrite occurrences_collapse by assumption.
  rewrite occurrences_replaced; [now apply occurrences_toLowerCase| |].
  - assumption.
  - intros ->. discriminate Hws.
Qed.

Lemma collapse_after_run (s : jsstring) :
  match collapseWhitespace true s with
  | [] => True
  | c :: _ => isWhiteSpace c = false
  end.
Proof.
  induction s as [|x s IH]; simpl; [exact I|].
  destruct (isWhiteSpace x) eqn:Hx; [exact IH | exact Hx].
Qed.

Lemma collapse_noWhitespaceRun (inRun : bool) (s : jsstring) :
  noWhitespaceRun (collapseWhitespace inRun s) = true.
Proof.
  revert inRun. induction s as [|x s IH]; intros inRun; [reflexivity|].
  cbn [collapseWhitespace]. destruct (isWhiteSpace x) eqn:Hx.
  - destruct inRun; [apply IH|].
    pose proof (collapse_after_run s) as Hhead. specialize (IH true).
    cbn [noWhitespaceRun].
    destruct (collapseWhitespace true s) as [|b r]; [reflexivity|].
    rewrite Hhead, andb_false_r. exact IH.
  - specialize (IH false). cbn [noWhitespaceRun].
    destruct (collapseWhitespace false s) as [|b r]; [reflexivity|].
    rewrite Hx. exact IH.
Qed.

(** Plus signs and hashes never reach the normalized text. *)
Lemma normalize_drops_plus_and_hash (text : jsstring) :
  occurrences 43 (Matcher.normalize text) = 0
  /\ occurrences 35 (Matcher.normalize text) = 0.
Proof.
  pose proof (normalize_alphabet text) as H.
  unfold occurrences.
  induction H as [|c s Hc _ [IH1 IH2]]; [now split|].
  cbn [count_occ].
  destruct (N.eq_dec c 43) as [->|_]; [discriminate Hc|].
  destruct (N.eq_dec c 35) as [->|_]; [discriminate Hc|].
  now split.
Qed.

(** C2 (as amended): the normalized text has no unit outside
    [[a-z0-9_ .+#-]], keeps every period and every hyphen of the input, and
    has no two whitespace units in a row. *)
Theorem normalize_output (text : jsstring) :
  Forall (fun c => amendedUnit c = true) (Matcher.normalize text)
  /\ occurrences 46 (Matcher.normalize text) = occurrences 46 text
  /\ occurrences 45 (Matcher.normalize text) = occurrences 45 text
  /\ noWhitespaceRun (Matcher.normalize text) = true.
Proof.
  split; [|split; [|split]].
  - eapply Forall_impl; [|apply normalize_alphabet].
    intros c. unfold normalizedUnit, amendedUnit, claimedUnit.
    destruct (isAsciiLower c), (isDigit c), (N.eqb c 95), (N.eqb c 32),
      (N.eqb c 46), (N.eqb c 45), (N.eqb c 43), (N.eqb c 35);
      simpl; congruence.
  - now apply normalize_keeps.
  - now apply normalize_keeps.
  - apply collapse_noWhitespaceRun.
Qed.

(** C2 (as stated) fails: on ["c++ c#_x"] the underscore survives although
    it is outside [[a-z0-9 .+#-]], and the plus signs and the hash are
    gone. *)
Lemma normalize_claim_counterexample :
  let text := lit "c++ c#_x" in
  Matcher.normalize text = lit "c c _x"
  /\ ~ (Forall (fun c => claimedUnit c = true) (Matcher.normalize text)
        /\ occurrences 43 (Matcher.normalize text) = occurrences 43 text
        /\ occurrences 35 (Matcher.normalize text) = occurrences 35 text
        /\ occurrences 46 (Matcher.normalize text) = occurrences 46 text
        /\ occurrences 45 (Matcher.normalize text) = occurrences 45 text
        /\ noWhitespaceRun (Matcher.normalize text) = true).
Proof.
  split; [reflexivity|].
  intros (_ & Hplus & _). vm_compute in Hplus. discriminate Hplus.
Qed.

(** ** Lists: prefixes, filters, first occurrences and the sort *)

Lemma In_firstn (A : Type) (n : nat) (l : list A) (x : A) :
  In x (firstn n l) -> In x l.
Proof.
  revert l. induction n as [|n IH]; intros [|y l]; simpl; try easy.
  intros [H | H]; [now left | right; now apply IH].
Qed.

Lemma Subsequence_firstn_filter (A : Type) (p : A -> bool) (n : nat)
  (l : list A) :
  Subsequence (firstn n (filter p l)) l.
Proof.
  revert n. induction l as [|x l IH]; intros n.
  - simpl. rewrite firstn_nil. constructor.
  - simpl. destruct (p x).
    + destruct n as [|n]; simpl.
      * apply sub_skip. specialize (IH 0). now rewrite firstn_0 in IH.
      * apply sub_keep. apply IH.
    + apply sub_skip. apply IH.
Qed.

Lemma filter_filter_length (A : Type) (p q : A -> bool) (l : list A) :
  length (filter p (filter q l)) <= length (filter p l).
Proof.
  induction l as [|x l IH]; simpl; [lia|].
  destruct (q x), (p x) eqn:Hp; simpl; rewrite ?Hp; simpl; lia.
Qed.

Lemma dedupFrom_In (seen l : list jsstring) (x : jsstring) :
  In x (dedupFrom seen l) <-> In x l /\ ~ In x seen.
Proof.
  revert seen. induction l as [|y l IH]; intros seen; simpl.
  - tauto.
  - destruct (has seen y) eqn:Hy.
    + apply has_iff in Hy. rewrite IH. split.
      * tauto.
      * intros [[-> | Hin] Hnot]; [contradiction | tauto].
    + apply has_false_iff in Hy. simpl. rewrite IH. simpl. split.
      * intros [-> | (Hin & Hnot)]; [tauto|]. split; [tauto|].
        intros Hs. apply Hnot. now right.
      * intros [[-> | Hin] Hnot]; [now left|].
        destruct (list_eq_dec N.eq_dec y x) as [-> | Hne]; [now left|].
        right. split; [assumption|]. intros [E | Hs]; [congruence | tauto].
Qed.

Lemma dedup_In (l : list jsstring) (x : jsstring) :
  In x (dedup l) <-> In x l.
Proof. unfold dedup. rewrite dedupFrom_In. simpl. tauto. Qed.

Lemma insertSorted_In (A : Type) (before : A -> A -> bool) (x y : A)
  (l : list A) :
  In y (insertSorted before x l) <-> y = x \/ In y l.
Proof.
  induction l as [|z l IH]; simpl.
  - intuition congruence.
  - destruct (before z x); simpl; rewrite ?IH; intuition congruence.
Qed.

Lemma stableSort_In (A : Type) (before : A -> A -> bool) (y : A)
  (l : list A) :
  In y (stableSort before l) <-> In y l.
Proof.
  unfold stableSort. induction l as [|x l IH]; simpl; [tauto|].
  rewrite insertSorted_In, IH. intuition congruence.
Qed.

Lemma stableSort_length (A : Type) (before : A -> A -> bool) (l : list A) :
  length (stableSort before l) = length l.
Proof.
  assert (Hins : forall x m,
             length (insertSorted before x m) = S (length m)).
  { intros x m. induction m as [|z m IH]; simpl; [reflexivity|].
    destruct (before z x); simpl; now rewrite ?IH. }
  unfold stableSort. induction l as [|x l IH]; simpl; [reflexivity|].
  now rewrite Hins, IH.
Qed.

Lemma insertIndexKey_In (A : Type) (e y : jsstring * A)
  (l : list (jsstring * A)) :
  In y (insertIndexKey e l) <-> y = e \/ In y l.
Proof.
  induction l as [|z l IH]; simpl.
  - intuition congruence.
  - destruct (N.leb _ _); simpl; rewrite ?IH; intuition congruence.
Qed.

Lemma ownEntries_In (A : Type) (y : jsstring * A)
  (l : list (jsstring * A)) :
  In y (ownEntries l) <-> In y l.
Proof.
  unfold ownEntries. rewrite in_app_iff.
  assert (Hfold : forall m : list (jsstring * A),
             In y (fold_right (@insertIndexKey A) [] m) <-> In y m).
  { induction m as [|x m IH]; simpl; [tauto|].
    rewrite insertIndexKey_In, IH. intuition congruence. }
  rewrite Hfold, !filter_In.
  destruct (isArrayIndex (fst y)); simpl; intuition congruence.
Qed.

(** ** Keyword extraction *)

(** Every token takes its units from the non-whitespace units read. *)
Lemma split_units (P : N -> Prop) (s cur : jsstring) (inSep : bool)
  (w : jsstring) :
  Forall P cur ->
  Forall (fun c => isWhiteSpace c = false -> P c) s ->
  In w (splitWhitespaceFrom cur inSep s) ->
  Forall P w.
Proof.
  revert cur inSep. induction s as [|c s IH]; intros cur inSep Hcur Hs Hin.
  - simpl in Hin. destruct Hin as [<- | []]. now apply Forall_rev.
  - apply Forall_cons_iff in Hs. destruct Hs as [Hc Hs].
    simpl in Hin. destruct (isWhiteSpace c) eqn:Hws.
    + destruct inSep.
      * now apply (IH [] true).
      * destruct Hin as [<- | Hin]; [now apply Forall_rev|].
        now apply (IH [] true).
    + apply (IH (c :: cur) false); auto.
Qed.

Lemma token_no_whitespace (s w : jsstring) :
  In w (splitWhitespace s) -> Forall (fun c => isWhiteSpace c = false) w.
Proof.
  apply split_units; [constructor|].
  apply Forall_forall. auto.
Qed.

Lemma token_normalized (text w : jsstring) :
  In w (splitWhitespace (Matcher.normalize text)) ->
  Forall (fun c => normalizedUnit c = true) w.
Proof.
  apply split_units; [constructor|].
  eapply Forall_impl; [|apply normalize_alphabet]. auto.
Qed.

Lemma startsWith_single (s : jsstring) (c : N) :
  startsWith s [c] = true -> In c s.
Proof.
  destruct s as [|d s]; simpl; [discriminate|].
  destruct (N.eqb_spec c d) as [-> | _]; [now left | discriminate].
Qed.

Lemma includes_single (s : jsstring) (c : N) :
  includes s [c] = true -> In c s.
Proof.
  induction s as [|d s IH].
  - simpl. discriminate.
  - cbn [includes]. rewrite orb_true_iff.
    intros [H | H]; [now apply startsWith_single | right; now apply IH].
Qed.

Lemma multiWordTerms_In (normalizedText w : jsstring) :
  In w (Matcher.multiWordTerms normalizedText) ->
  In w technicalTerms /\ In 32%N w.
Proof.
  unfold Matcher.multiWordTerms. rewrite filter_In, andb_true_iff.
  intros (Hin & Hspace & _). split; [assumption|].
  now apply includes_single.
Qed.

Lemma technicalTerms_lowercase (w : jsstring) :
  In w technicalTerms -> toLowerCase w = w.
Proof.
  assert (Hall : forallb (fun t => eqs (toLowerCase t) t) technicalTerms
                 = true) by (vm_compute; reflexivity).
  rewrite forallb_forall in Hall. intros Hin.
  apply eqs_iff. now apply Hall.
Qed.

Lemma extractKeywords_allTerms (text k : jsstring) :
  In k (Matcher.extractKeywords text) ->
  In k (Matcher.allTerms (Matcher.normalize text)).
Proof.
  unfold Matcher.extractKeywords. rewrite in_map_iff.
  intros ([k' n] & Hfst & Hin). simpl in Hfst. subst k'.
  apply In_firstn in Hin. rewrite stableSort_In, ownEntries_In in Hin.
  unfold Matcher.termCount in Hin. apply in_map_iff in Hin.
  destruct Hin as (term & Heq & Hterm). now injection Heq as -> _.
Qed.

Lemma allTerms_lowercase (text k : jsstring) :
  In k (Matcher.allTerms (Matcher.normalize text)) -> toLowerCase k = k.
Proof.
  unfold Matcher.allTerms. rewrite dedup_In, in_app_iff.
  intros [Hmulti | Hword].
  - apply technicalTerms_lowercase. now apply multiWordTerms_In in Hmulti.
  - apply toLowerCase_normalized.
    unfold Matcher.words in Hword. apply filter_In in Hword.
    now apply token_normalized with (text := text).
Qed.

(** Extracted keywords are in lowercase already. *)
Lemma extractKeywords_lowercase (text k : jsstring) :
  In k (Matcher.extractKeywords text) -> toLowerCase k = k.
Proof.
  intros H. eapply allTerms_lowercase, extractKeywords_allTerms, H.
Qed.

Lemma extractKeywords_length (text : jsstring) :
  length (Matcher.extractKeywords text) <= 30.
Proof.
  unfold Matcher.extractKeywords. rewrite length_map.
  apply firstn_le_length.
Qed.

Lemma existsb_hasDigitOrSymbol (w : jsstring) :
  Matcher.hasDigitOrSymbol w = true <->
  exists c, In c w /\
    (isDigit c = true \/ c = 43%N \/ c = 35%N \/ c = 46%N \/ c = 45%N).
Proof.
  unfold Matcher.hasDigitOrSymbol. rewrite existsb_exists.
  split; intros (c & Hin & Hc); exists c; split; try assumption.
  - rewrite !orb_true_iff, !N.eqb_eq in Hc. tauto.
  - rewrite !orb_true_iff, !N.eqb_eq. tauto.
Qed.

(** C6: a whitespace-split token of the normalized text is a keyword
    candidate exactly when it is longer than 2, is no stop word, and is a
    technical term or contains a digit or one of [+ # . -]. *)
Theorem keyword_candidate_iff (text token : jsstring) :
  In token (splitWhitespace (Matcher.normalize text)) ->
  (In token (Matcher.allTerms (Matcher.normalize text)) <->
   2 < length token
   /\ isStopWord token = false
   /\ (isTechnicalTerm token = true
       \/ exists c, In c token /\
            (isDigit c = true \/ c = 43%N \/ c = 35%N \/ c = 46%N
             \/ c = 45%N))).
Proof.
  intros Htoken. unfold Matcher.allTerms.
  rewrite dedup_In, in_app_iff.
  assert (Hword : In token (Matcher.words (Matcher.normalize text)) <->
                  2 < length token /\ isStopWord token = false
                  /\ (isTechnicalTerm token = true
                      \/ Matcher.hasDigitOrSymbol token = true)).
  { unfold Matcher.words, Matcher.keepWord.
    rewrite filter_In, !andb_true_iff, negb_true_iff, orb_true_iff,
      Nat.ltb_lt. tauto. }
  rewrite <- existsb_hasDigitOrSymbol, <- Hword. split; [|tauto].
  intros [Hmulti | H]; [|exact H].
  apply multiWordTerms_In in Hmulti. destruct Hmulti as [_ Hspace].
  apply token_no_whitespace in Htoken.
  rewrite Forall_forall in Htoken. apply Htoken in Hspace.
  discriminate Hspace.
Qed.

Lemma keyword_candidate_iff_witness :
  In (lit "python3")
    (Matcher.allTerms (Matcher.normalize (lit "Python3, AWS and more"))).
Proof.
  apply (keyword_candidate_iff (lit "Python3, AWS and more") (lit "python3")).
  - member.
  - split; [vm_compute; lia|]. split; [vm_compute; reflexivity|].
    right. exists 51%N. split; [member|]. left. reflexivity.
Defined.

(** ** Rounded shares *)

Lemma shareTable_sound (scale : float) (k : Z) (bound : nat)
  (skip : nat -> nat -> bool) (a b : nat) :
  shareTable scale k bound skip = true ->
  a <= b -> 1 <= b <= bound -> skip a b = false ->
  Matcher.roundedShare a b scale
  = roundHalfUp (k * Z.of_nat a) (Z.of_nat b).
Proof.
  unfold shareTable. rewrite forallb_forall. intros Htable Hab Hb Hskip.
  assert (Hrow := Htable b). rewrite forallb_forall in Hrow.
  assert (Hcell : skip a b || shareAgrees scale k a b = true).
  { apply Hrow; apply in_seq; lia. }
  rewrite Hskip in Hcell. simpl in Hcell.
  unfold shareAgrees in Hcell. now apply Z.eqb_eq in Hcell.
Qed.

(** On at most 30 requirements the double computation of the percentage
    is the exact rounding. *)
Lemma roundedShare_100 (a b : nat) :
  a <= b -> 1 <= b <= 30 ->
  Matcher.roundedShare a b 100%float
  = roundHalfUp (100 * Z.of_nat a) (Z.of_nat b).
Proof.
  intros Hab Hb.
  apply (@shareTable_sound 100%float 100%Z 30 (fun _ _ => false));
    [vm_compute; reflexivity | assumption | assumption | reflexivity].
Qed.

(** With the factor 85 the double computation is the exact rounding except
    at the ratio seven tenths. *)
Lemma roundedShare_85 (a b : nat) :
  a <= b -> 1 <= b <= 30 -> 10 * a <> 7 * b ->
  Matcher.roundedShare a b 85%float
  = roundHalfUp (85 * Z.of_nat a) (Z.of_nat b).
Proof.
  intros Hab Hb Hratio.
  apply (@shareTable_sound 85%float 85%Z 30 sevenTenths);
    [vm_compute; reflexivity | assumption | assumption |].
  unfold sevenTenths. now apply Nat.eqb_neq.
Qed.

(** At seven tenths the product falls just below 59.5. *)
Lemma roundedShare_85_seven_tenths :
  Matcher.roundedShare 7 10 85%float = 59%Z
  /\ Matcher.roundedShare 14 20 85%float = 59%Z
  /\ Matcher.roundedShare 21 30 85%float = 59%Z
  /\ roundHalfUp (85 * 7) 10 = 60%Z.
Proof. vm_compute. repeat split; reflexivity. Qed.

(** ** The report *)

Lemma improvementsFrom_returns (o : HF.Outcome) (fallback : list jsstring) :
  HF.improvementsFrom o fallback = Returned (improvementsOf o fallback).
Proof.
  unfold HF.improvementsFrom, improvementsOf, catch.
  now destruct (HF.summarize o fallback).
Qed.

(** The analysis returns, and every field but [improvements] is computed
    from the two texts alone. *)
Lemma analyze_returns (fetch : jsstring -> HF.Outcome)
  (resumeText jobDescription : jsstring) :
  Matcher.analyzeWithHuggingFace fetch resumeText jobDescription
  = Returned
      {| Report.matchScore :=
           Matcher.matchScore (Matcher.extractKeywords resumeText)
             (Matcher.extractKeywords jobDescription);
         Report.matchLevel :=
           Matcher.matchLevel
             (Matcher.matchScore (Matcher.extractKeywords resumeText)
                (Matcher.extractKeywords jobDescription));
         Report.positionTitle := Matcher.positionTitle jobDescription;
         Report.company := Matcher.company jobDescription;
         Report.missingKeywords :=
           firstn 5
             (Matcher.missingKeywords (Matcher.extractKeywords resumeText)
                (Matcher.extractKeywords jobDescription));
         Report.skillsFound :=
           Matcher.displaySkills (Matcher.extractKeywords resumeText)
             (Matcher.extractKeywords jobDescription);
         Report.improvements :=
           improvementsOf
             (fetch (HF.prompt resumeText jobDescription))
             Matcher.fallbackImprovements |}.
Proof.
  unfold Matcher.analyzeWithHuggingFace.
  rewrite improvementsFrom_returns. reflexivity.
Qed.

(** ** Scoring *)

(** On extracted keywords the lowercase lookup is the lookup itself. *)
Lemma technical_filter_extracted (text : jsstring) (l : list jsstring) :
  (forall k, In k l -> In k (Matcher.extractKeywords text)) ->
  filter (fun k => isTechnicalTerm (toLowerCase k)) l
  = filter isTechnicalTerm l.
Proof.
  intros Hsub. apply filter_ext_in. intros k Hk.
  now rewrite (extractKeywords_lowercase text k (Hsub k Hk)).
Qed.

Lemma matchedSkills_In (resumeKeywords jdKeywords : list jsstring)
  (k : jsstring) :
  In k (Matcher.matchedSkills resumeKeywords jdKeywords) -> In k jdKeywords.
Proof. unfold Matcher.matchedSkills. rewrite filter_In. tauto. Qed.

Lemma technicalMatches_le (resumeKeywords jdKeywords : list jsstring) :
  length (Matcher.technicalMatches resumeKeywords jdKeywords)
  <= length (Matcher.technicalRequirements jdKeywords).
Proof. apply filter_filter_length. Qed.

Lemma technicalRequirements_le (jdKeywords : list jsstring) :
  length (Matcher.technicalRequirements jdKeywords) <= length jdKeywords.
Proof. apply filter_length_le. Qed.

Lemma matchedSkills_le (resumeKeywords jdKeywords : list jsstring) :
  length (Matcher.matchedSkills resumeKeywords jdKeywords)
  <= length jdKeywords.
Proof. apply filter_length_le. Qed.

Lemma matchScore_le_95 (resumeKeywords jdKeywords : list jsstring) :
  (Matcher.matchScore resumeKeywords jdKeywords <= 95)%Z.
Proof. unfold Matcher.matchScore. apply Z.le_min_r. Qed.

(** C1: when the extracted job-description keywords contain a technical
    term, the score is [min(round(100 * |technicalMatches| /
    |technicalRequirements|), 95)], hence at most 95. *)
Theorem matchScore_technical (fetch : jsstring -> HF.Outcome)
  (resumeText jobDescription : jsstring) :
  let resumeKeywords := Matcher.extractKeywords resumeText in
  let jdKeywords := Matcher.extractKeywords jobDescription in
  let technicalMatches :=
    filter isTechnicalTerm (Matcher.matchedSkills resumeKeywords jdKeywords) in
  let technicalRequirements := filter isTechnicalTerm jdKeywords in
  (exists k, In k jdKeywords /\ isTechnicalTerm k = true) ->
  exists rep,
    Matcher.analyzeWithHuggingFace fetch resumeText jobDescription
    = Returned rep
    /\ Report.matchScore rep
       = Z.min
           (roundHalfUp (100 * Z.of_nat (length technicalMatches))
              (Z.of_nat (length technicalRequirements)))
           95
    /\ (Report.matchScore rep <= 95)%Z.
Proof.
  intros rk jk tm tr (k & Hk & Htech).
  eexists. split; [apply analyze_returns|]. cbn [Report.matchScore].
  split; [|apply matchScore_le_95].
  fold rk jk. unfold Matcher.matchScore.
  assert (Htm : Matcher.technicalMatches rk jk = tm).
  { unfold Matcher.technicalMatches.
    apply (technical_filter_extracted jobDescription).
    intros x Hx. now apply matchedSkills_In in Hx. }
  assert (Htr : Matcher.technicalRequirements jk = tr).
  { unfold Matcher.technicalRequirements.
    now apply (technical_filter_extracted jobDescription). }
  assert (Hpos : 1 <= length tr).
  { assert (Hin : In k tr) by (apply filter_In; now split).
    destruct tr; [contradiction | simpl; lia]. }
  assert (Hle : length tm <= length tr).
  { rewrite <- Htm, <- Htr. apply technicalMatches_le. }
  assert (Hmax : length tr <= 30).
  { rewrite <- Htr.
    etransitivity; [apply technicalRequirements_le|].
    apply extractKeywords_length. }
  rewrite Htm, Htr.
  destruct (Nat.ltb_spec 0 (length tr)) as [_ | Hzero]; [|lia].
  now rewrite roundedShare_100 by lia.
Qed.

Lemma matchScore_technical_witness :
  exists rep,
    Matcher.analyzeWithHuggingFace (fun _ => HF.FetchRejected)
      (lit "Experienced Python developer with Docker and AWS skills")
      (lit "Looking for a Python Developer with Docker, Kubernetes and AWS experience. Position: Senior Python Developer")
    = Returned rep
    /\ Report.matchScore rep = 75%Z.
Proof.
  destruct
    (@matchScore_technical (fun _ => HF.FetchRejected)
       (lit "Experienced Python developer with Docker and AWS skills")
       (lit "Looking for a Python Developer with Docker, Kubernetes and AWS experience. Position: Senior Python Developer"))
    as (rep & Hrep & Hscore & _).
  - exists (lit "python"). split; [member | vm_compute; reflexivity].
  - exists rep. split; [exact Hrep|]. rewrite Hscore. vm_compute.
    reflexivity.
Defined.

(** The sequence the report calls [missingKeywords], on any two keyword
    lists. *)
Lemma missingKeywords_lists (resumeKeywords jdKeywords : list jsstring) :
  let missing :=
    firstn 5 (Matcher.missingKeywords resumeKeywords jdKeywords) in
  Forall (fun k => ~ In (toLowerCase k) (map toLowerCase resumeKeywords))
    missing
  /\ Forall (fun k => isTechnicalTerm (toLowerCase k) = true) missing
  /\ Forall (fun k => In k jdKeywords) missing
  /\ Subsequence missing jdKeywords
  /\ length (Matcher.missingKeywords resumeKeywords jdKeywords) <= 6
  /\ length missing <= 5.
Proof.
  intros missing.
  assert (Hmem : forall k, In k missing ->
            has (Matcher.resumeSet resumeKeywords) (toLowerCase k) = false
            /\ isTechnicalTerm (toLowerCase k) = true
            /\ In k jdKeywords).
  { intros k Hk. unfold missing, Matcher.missingKeywords in Hk.
    do 2 apply In_firstn in Hk. apply filter_In in Hk.
    destruct Hk as [Hin Hk]. apply andb_true_iff in Hk.
    rewrite negb_true_iff in Hk. tauto. }
  repeat split.
  - apply Forall_forall. intros k Hk. apply Hmem in Hk.
    now apply has_false_iff.
  - apply Forall_forall. intros k Hk. now apply Hmem in Hk.
  - apply Forall_forall. intros k Hk. now apply Hmem in Hk.
  - unfold missing, Matcher.missingKeywords. rewrite firstn_firstn.
    apply Subsequence_firstn_filter.
  - apply firstn_le_length.
  - apply firstn_le_length.
Qed.

(** C3: the reported [missingKeywords] holds no term whose lowercase form
    is among the lowercased resume keywords, holds catalog members only,
    keeps the job-description order, and has at most 5 elements, being the
    first 5 of a sequence already capped at 6. *)
Theorem missingKeywords_report (fetch : jsstring -> HF.Outcome)
  (resumeText jobDescription : jsstring) :
  let resumeKeywords := Matcher.extractKeywords resumeText in
  let jdKeywords := Matcher.extractKeywords jobDescription in
  exists rep,
    Matcher.analyzeWithHuggingFace fetch resumeText jobDescription
    = Returned rep
    /\ Report.missingKeywords rep
       = firstn 5 (Matcher.missingKeywords resumeKeywords jdKeywords)
    /\ Forall (fun k => ~ In (toLowerCase k) (map toLowerCase resumeKeywords))
         (Report.missingKeywords rep)
    /\ Forall (fun k => isTechnicalTerm k = true) (Report.missingKeywords rep)
    /\ Subsequence (Report.missingKeywords rep) jdKeywords
    /\ length (Matcher.missingKeywords resumeKeywords jdKeywords) <= 6
    /\ length (Report.missingKeywords rep) <= 5.
Proof.
  intros rk jk. eexists. split; [apply analyze_returns|].
  cbn [Report.missingKeywords]. fold rk jk.
  destruct (missingKeywords_lists rk jk)
    as (Habsent & Htech & Hin & Hsub & Hsix & Hfive).
  repeat split; try assumption.
  rewrite Forall_forall in *. intros k Hk.
  rewrite <- (extractKeywords_lowercase jobDescription k (Hin k Hk)).
  now apply Htech.
Qed.

(** The displayed skills, on any two keyword lists. *)
Lemma displaySkills_lists (resumeKeywords jdKeywords : list jsstring) :
  Matcher.displaySkills resumeKeywords jdKeywords
  = match Matcher.matchedSkills resumeKeywords jdKeywords with
    | [] =>
        firstn 5
          (filter (fun k => isTechnicalTerm (toLowerCase k)) resumeKeywords)
    | _ :: _ => firstn 8 (Matcher.matchedSkills resumeKeywords jdKeywords)
    end.
Proof.
  unfold Matcher.displaySkills.
  now destruct (Matcher.matchedSkills resumeKeywords jdKeywords).
Qed.

(** C7: [skillsFound] is the first 8 matched skills when there are any, and
    otherwise the first 5 resume keywords that are in the catalog (none when
    the resume has no such keyword). *)
Theorem skillsFound_report (fetch : jsstring -> HF.Outcome)
  (resumeText jobDescription : jsstring) :
  let resumeKeywords := Matcher.extractKeywords resumeText in
  let jdKeywords := Matcher.extractKeywords jobDescription in
  exists rep,
    Matcher.analyzeWithHuggingFace fetch resumeText jobDescription
    = Returned rep
    /\ Report.skillsFound rep
       = match Matcher.matchedSkills resumeKeywords jdKeywords with
         | [] => firstn 5 (filter isTechnicalTerm resumeKeywords)
         | _ :: _ =>
             firstn 8 (Matcher.matchedSkills resumeKeywords jdKeywords)
         end.
Proof.
  intros rk jk. eexists. split; [apply analyze_returns|].
  cbn [Report.skillsFound]. fold rk jk. rewrite displaySkills_lists.
  destruct (Matcher.matchedSkills rk jk); [|reflexivity].
  now rewrite (technical_filter_extracted resumeText).
Qed.

(** C5: [matchLevel] is the four-bucket classification of the score, and
    the level in the report is the bucket of the score in the report. *)
Theorem matchLevel_buckets :
  (forall score : Z,
      ((80 <= score)%Z ->
       Matcher.matchLevel score = lit "Strong Candidate Match")
      /\ ((60 <= score < 80)%Z ->
          Matcher.matchLevel score = lit "Good Candidate Match")
      /\ ((40 <= score < 60)%Z ->
          Matcher.matchLevel score = lit "Moderate Candidate Match")
      /\ ((score < 40)%Z ->
          Matcher.matchLevel score = lit "Potential Candidate Match"))
  /\ (forall fetch resumeText jobDescription,
         exists rep,
           Matcher.analyzeWithHuggingFace fetch resumeText jobDescription
           = Returned rep
           /\ Report.matchLevel rep
              = Matcher.matchLevel (Report.matchScore rep)).
Proof.
  split.
  - intros score. unfold Matcher.matchLevel.
    destruct (Z.leb_spec 80 score), (Z.leb_spec 60 score),
      (Z.leb_spec 40 score); repeat split; intros; (reflexivity || lia).
  - intros fetch resumeText jobDescription. eexists.
    split; [apply analyze_returns | reflexivity].
Qed.

Lemma matchLevel_buckets_witness :
  Matcher.matchLevel 95 = lit "Strong Candidate Match"
  /\ Matcher.matchLevel 75 = lit "Good Candidate Match"
  /\ Matcher.matchLevel 40 = lit "Moderate Candidate Match"
  /\ Matcher.matchLevel 0 = lit "Potential Candidate Match".
Proof.
  split; [apply (proj1 (proj1 matchLevel_buckets 95%Z)); lia|].
  split; [apply (proj1 (proj2 (proj1 matchLevel_buckets 75%Z))); lia|].
  split;
    [apply (proj1 (proj2 (proj2 (proj1 matchLevel_buckets 40%Z)))); lia|].
  apply (proj2 (proj2 (proj2 (proj1 matchLevel_buckets 0%Z)))); lia.
Defined.

(** In [server.js] the score is capped at 95 as well, and the lowest bucket
    carries another label. *)
Lemma simple_matchScore_le_95 (resumeKeywords jdKeywords : list jsstring)
  (random : float) :
  (Simple.matchScore resumeKeywords jdKeywords random <= 95)%Z.
Proof. unfold Simple.matchScore. apply Z.le_min_r. Qed.

Lemma simple_matchLevel_lowest (score : Z) :
  (score < 40)%Z -> Simple.matchLevel score = lit "Weak Candidate Match".
Proof.
  intros H. unfold Simple.matchLevel.
  destruct (Z.leb_spec 80 score), (Z.leb_spec 60 score),
    (Z.leb_spec 40 score); (reflexivity || lia).
Qed.

(** *** The fallback formula *)

Lemma roundHalfUp_share_le (k : Z) (a b : nat) :
  (0 <= k)%Z -> a <= b -> 1 <= b ->
  (roundHalfUp (k * Z.of_nat a) (Z.of_nat b) <= k)%Z.
Proof.
  intros Hk Hab Hb. unfold roundHalfUp.
  apply Z.lt_succ_r, Z.div_lt_upper_bound; nia.
Qed.

(** When no extracted job-description keyword is in the catalog, the
    divisor is at least 1, and the score is the exact rounding of
    [85 * |matchedSkills| / max(|jdKeywords|, 1)] unless that ratio is seven
    tenths, where it is 59. *)
Lemma fallback_score (resumeText jobDescription : jsstring) :
  let resumeKeywords := Matcher.extractKeywords resumeText in
  let jdKeywords := Matcher.extractKeywords jobDescription in
  let matched := length (Matcher.matchedSkills resumeKeywords jdKeywords) in
  let divisor := Nat.max (length jdKeywords) 1 in
  Forall (fun k => isTechnicalTerm k = false) jdKeywords ->
  1 <= divisor
  /\ (10 * matched <> 7 * divisor ->
      Matcher.matchScore resumeKeywords jdKeywords
      = roundHalfUp (85 * Z.of_nat matched) (Z.of_nat divisor))
  /\ (10 * matched = 7 * divisor ->
      Matcher.matchScore resumeKeywords jdKeywords = 59%Z
      /\ roundHalfUp (85 * Z.of_nat matched) (Z.of_nat divisor) = 60%Z).
Proof.
  intros rk jk matched divisor Hnone.
  assert (Hreqs : Matcher.technicalRequirements jk = []).
  { unfold Matcher.technicalRequirements.
    rewrite (technical_filter_extracted jobDescription) by auto.
    rewrite Forall_forall in Hnone.
    induction jk as [|x l IH]; [reflexivity|]. simpl.
    rewrite (Hnone x) by now left. apply IH. intros y Hy. apply Hnone.
    now right. }
  assert (Hlen : length jk <= 30) by apply extractKeywords_length.
  assert (Hm : matched <= length jk) by apply matchedSkills_le.
  assert (Hscore : Matcher.matchScore rk jk
                   = Z.min (Matcher.roundedShare matched divisor 85%float) 95).
  { unfold Matcher.matchScore. now rewrite Hreqs. }
  split; [subst divisor; lia|]. split.
  - intros Hratio. rewrite Hscore, roundedShare_85 by (subst divisor; lia).
    apply Z.min_l.
    assert (roundHalfUp (85 * Z.of_nat matched) (Z.of_nat divisor) <= 85)%Z
      by (apply roundHalfUp_share_le; subst divisor; lia).
    lia.
  - intros Hratio. rewrite Hscore.
    assert (Hcases : (matched = 7 /\ divisor = 10)
                     \/ (matched = 14 /\ divisor = 20)
                     \/ (matched = 21 /\ divisor = 30))
      by (subst divisor; lia).
    destruct Hcases as [[-> ->] | [[-> ->] | [-> ->]]];
      vm_compute; split; reflexivity.
Qed.

(** C4 on the code: a job description with ten keywords, none of them in the
    catalog, and a resume that has seven of them.  The code returns 59; the
    formula [round(85 * 7 / max(10, 1))] is 60. *)
Theorem fallback_score_seven_of_ten (fetch : jsstring -> HF.Outcome) :
  let resumeText :=
    lit "Worked with AutoCAD-2022, ISO-9001, Six-Sigma, MS-Office, SAP-ERP, B2B and B2C" in
  let jobDescription :=
    lit "Requirements: AutoCAD-2022, ISO-9001, Six-Sigma, MS-Office, SAP-ERP, B2B, B2C, 3D-modeling, CNC-5axis, OSHA-30" in
  let resumeKeywords := Matcher.extractKeywords resumeText in
  let jdKeywords := Matcher.extractKeywords jobDescription in
  Forall (fun k => isTechnicalTerm k = false) jdKeywords
  /\ length (Matcher.matchedSkills resumeKeywords jdKeywords) = 7
  /\ length jdKeywords = 10
  /\ (exists rep,
        Matcher.analyzeWithHuggingFace fetch resumeText jobDescription
        = Returned rep
        /\ Report.matchScore rep = 59%Z)
  /\ roundHalfUp (85 * 7) (Z.of_nat (Nat.max 10 1)) = 60%Z.
Proof.
  intros resumeText jobDescription rk jk.
  split; [|split; [|split; [|split]]].
  - apply Forall_forall. intros k Hk.
    assert (Hall : forallb (fun k => negb (isTechnicalTerm k)) jk = true)
      by (vm_compute; reflexivity).
    rewrite forallb_forall in Hall. apply Hall in Hk.
    now apply negb_true_iff in Hk.
  - vm_compute. reflexivity.
  - vm_compute. reflexivity.
  - eexists. split; [apply analyze_returns|].
    cbn [Report.matchScore]. vm_compute. reflexivity.
  - vm_compute. reflexivity.
Qed.

(** ** The matcher *)

Section MatcherSound.
Variable R : Type.

Lemma repeatGreedy_sound (r : regex) (step : matcher R) :
  CallsBack r step ->
  forall fuel lo hi, CallsBack (Rep r lo hi) (repeatGreedy step fuel lo hi).
Proof.
  intros Hstep fuel.
  induction fuel as [|fuel IH]; intros lo hi prev s cap k res Hrun.
  - discriminate Hrun.
  - cbn [repeatGreedy] in Hrun.
    destruct (if hiAllows hi
              then step prev s cap
                     (fun prev' s' cap' =>
                        if Nat.ltb (length s') (length s)
                        then repeatGreedy step fuel (Nat.pred lo)
                               (option_map Nat.pred hi) prev' s' cap' k
                        else None)
              else None) as [res'|] eqn:Hmore.
    + injection Hrun as ->.
      destruct (hiAllows hi); [|discriminate Hmore].
      apply Hstep in Hmore.
      destruct Hmore as (prev1 & s1 & cap1 & Hk & Hone).
      destruct (Nat.ltb (length s1) (length s)); [|discriminate Hk].
      apply IH in Hk. destruct Hk as (prev2 & s2 & cap2 & Hk & Hrest).
      exists prev2, s2, cap2. split; [exact Hk|].
      eapply consumes_rep_more; eassumption.
    + destruct lo as [|lo]; [|discriminate Hrun].
      exists prev, s, cap. split; [exact Hrun | constructor].
Qed.

(** Whenever the matcher succeeds it has called its continuation on a
    state one match of the pattern away. *)
Lemma run_sound (r : regex) : CallsBack r (run (R := R) r).
Proof.
  induction r as [p| |r1 IH1 r2 IH2|r1 IH1 r2 IH2|r IH lo hi|r IH| |];
    intros prev s cap k res Hrun; cbn [run] in Hrun.
  - destruct s as [|c t]; [discriminate Hrun|].
    destruct (p c) eqn:Hp; [|discriminate Hrun].
    exists (Some c), t, cap. split; [exact Hrun | now constructor].
  - exists prev, s, cap. split; [exact Hrun | constructor].
  - apply IH1 in Hrun. destruct Hrun as (prev1 & s1 & cap1 & Hk & H1).
    apply IH2 in Hk. destruct Hk as (prev2 & s2 & cap2 & Hk & H2).
    exists prev2, s2, cap2. split; [exact Hk|].
    eapply consumes_cat; eassumption.
  - destruct (run r1 prev s cap k) as [res'|] eqn:Hleft.
    + injection Hrun as ->. apply IH1 in Hleft.
      destruct Hleft as (prev1 & s1 & cap1 & Hk & H1).
      exists prev1, s1, cap1. split; [exact Hk | now apply consumes_alt_l].
    + apply IH2 in Hrun. destruct Hrun as (prev1 & s1 & cap1 & Hk & H1).
      exists prev1, s1, cap1. split; [exact Hk | now apply consumes_alt_r].
  - exact (repeatGreedy_sound IH (S (length s)) lo hi prev s cap k Hrun).
  - apply IH in Hrun. destruct Hrun as (prev1 & s1 & cap1 & Hk & H1).
    exists prev1, s1, (Some (firstn (length s - length s1) s)).
    split; [exact Hk|]. eapply consumes_group. exact H1.
  - exists prev, s, cap. split; [|constructor].
    destruct prev as [c|]; [|exact Hrun].
    destruct (isLineTerminator c); [exact Hrun | discriminate Hrun].
  - exists prev, s, cap. split; [|constructor].
    destruct s as [|c t]; [exact Hrun|].
    destruct (isLineTerminator c); [exact Hrun | discriminate Hrun].
Qed.

End MatcherSound.

Lemma Consumes_length (r : regex) (a b : jsstring * option jsstring) :
  Consumes r a b -> length (fst b) + minLength r <= length (fst a).
Proof.
  induction 1; cbn [minLength fst length] in *; try lia.
  destruct lo as [|lo]; cbn [Nat.pred] in *; lia.
Qed.

Lemma Consumes_groupFree (r : regex) (a b : jsstring * option jsstring) :
  Consumes r a b -> groupFree r = true -> snd b = snd a.
Proof.
  induction 1; cbn [groupFree snd] in *; intros Hfree;
    try reflexivity; try discriminate Hfree;
    try (apply andb_true_iff in Hfree; destruct Hfree);
    try (rewrite IHConsumes2, IHConsumes1 by assumption; reflexivity);
    auto.
Qed.

Lemma Consumes_capturing (r : regex) (a b : jsstring * option jsstring) :
  Consumes r a b -> capturing r = true ->
  exists c g, snd b = Some (c :: g).
Proof.
  induction 1; cbn [capturing] in *; intros Hcap; try discriminate Hcap.
  - apply orb_true_iff in Hcap. destruct Hcap as [Hcap | Hcap].
    + apply andb_true_iff in Hcap. destruct Hcap as [Hcap Hfree].
      rewrite (Consumes_groupFree H0 Hfree). now apply IHConsumes1.
    + now apply IHConsumes2.
  - apply andb_true_iff in Hcap. destruct Hcap as [_ Hmin].
    apply Nat.ltb_lt in Hmin. apply Consumes_length in H.
    cbn [fst snd] in *.
    destruct s as [|c s]; [simpl in H; lia|].
    destruct (length (c :: s) - length s') as [|n] eqn:Hn; [lia|].
    simpl. eauto.
Qed.

Lemma searchFrom_capturing (r : regex) (s : jsstring) (prev : option N)
  (cap : option jsstring) :
  capturing r = true -> searchFrom r prev s = Some cap ->
  exists c g, cap = Some (c :: g).
Proof.
  intros Hcap. revert prev.
  induction s as [|x s IH]; intros prev Hsearch; cbn [searchFrom] in Hsearch.
  - destruct (run r prev [] None (fun _ _ cap0 => Some cap0)) as [cap0|]
      eqn:Hrun; [|discriminate Hsearch].
    injection Hsearch as ->. apply run_sound in Hrun.
    destruct Hrun as (prev1 & s1 & cap1 & Hk & Hstep).
    injection Hk as ->. exact (Consumes_capturing Hstep Hcap).
  - destruct (run r prev (x :: s) None (fun _ _ cap0 => Some cap0))
      as [cap0|] eqn:Hrun.
    + injection Hsearch as ->. apply run_sound in Hrun.
      destruct Hrun as (prev1 & s1 & cap1 & Hk & Hstep).
      injection Hk as ->. exact (Consumes_capturing Hstep Hcap).
    + now apply IH in Hsearch.
Qed.

(** A capturing pattern that matches leaves a non-empty [match[1]]. *)
Lemma firstMatch_capturing (r : regex) (text : jsstring) :
  capturing r = true -> matchesIn text r ->
  exists c g, firstMatch r text = Some (Some (c :: g)).
Proof.
  unfold matchesIn, firstMatch. intros Hcap Hmatch.
  destruct (searchFrom r None text) as [cap|] eqn:Hsearch; [|congruence].
  destruct (searchFrom_capturing _ _ _ Hcap Hsearch) as (c & g & ->).
  eauto.
Qed.

(** ** Title and company *)

Lemma patterns_capturing :
  Forall (fun p => capturing p = true)
    (Matcher.titlePatterns ++ Matcher.companyPatterns).
Proof. repeat constructor. Qed.

Lemma firstCapture_none (patterns : list regex) (text fallback : jsstring) :
  Forall (fun q => ~ matchesIn text q) patterns ->
  Matcher.firstCapture patterns text fallback = fallback.
Proof.
  induction 1 as [|q patterns Hq _ IH]; [reflexivity|].
  cbn [Matcher.firstCapture]. unfold matchesIn in Hq.
  destruct (firstMatch q text); [|exact IH].
  exfalso. apply Hq. discriminate.
Qed.

Lemma firstCapture_first (before after : list regex) (p : regex)
  (text fallback : jsstring) :
  capturing p = true ->
  Forall (fun q => ~ matchesIn text q) before ->
  matchesIn text p ->
  Matcher.firstCapture (before ++ p :: after) text fallback
  = trim (group1 p text).
Proof.
  intros Hcap Hbefore Hp.
  induction Hbefore as [|q before Hq _ IH].
  - cbn [app Matcher.firstCapture]. unfold group1.
    destruct (firstMatch_capturing Hcap Hp) as (c & g & ->). reflexivity.
  - cbn [app Matcher.firstCapture]. unfold matchesIn in Hq.
    destruct (firstMatch q text); [|exact IH].
    exfalso. apply Hq. discriminate.
Qed.

(** C8: in the title list and in the company list the first pattern that
    matches decides, and the result is its first group, trimmed; when no
    pattern of either list matches, the title is ["Target Position"] and the
    company ["Target Company"].  The report carries these two values. *)
Theorem title_company_first_match (jobDescription : jsstring) :
  (forall before p after,
      Matcher.titlePatterns = before ++ p :: after ->
      Forall (fun q => ~ matchesIn jobDescription q) before ->
      matchesIn jobDescription p ->
      Matcher.positionTitle jobDescription
      = trim (group1 p jobDescription))
  /\ (forall before p after,
         Matcher.companyPatterns = before ++ p :: after ->
         Forall (fun q => ~ matchesIn jobDescription q) before ->
         matchesIn jobDescription p ->
         Matcher.company jobDescription = trim (group1 p jobDescription))
  /\ (Forall (fun q => ~ matchesIn jobDescription q)
        (Matcher.titlePatterns ++ Matcher.companyPatterns) ->
      Matcher.positionTitle jobDescription = lit "Target Position"
      /\ Matcher.company jobDescription = lit "Target Company")
  /\ (forall fetch resumeText,
         exists rep,
           Matcher.analyzeWithHuggingFace fetch resumeText jobDescription
           = Returned rep
           /\ Report.positionTitle rep = Matcher.positionTitle jobDescription
           /\ Report.company rep = Matcher.company jobDescription).
Proof.
  pose proof patterns_capturing as Hcap.
  apply Forall_app in Hcap. destruct Hcap as [Htitle Hcompany].
  split; [|split; [|split]].
  - intros before p after Hlist Hbefore Hp.
    unfold Matcher.positionTitle. rewrite Hlist in *.
    apply firstCapture_first; try assumption.
    apply Forall_app in Htitle. destruct Htitle as [_ Htitle].
    now apply Forall_cons_iff in Htitle.
  - intros before p after Hlist Hbefore Hp.
    unfold Matcher.company. rewrite Hlist in *.
    apply firstCapture_first; try assumption.
    apply Forall_app in Hcompany. destruct Hcompany as [_ Hcompany].
    now apply Forall_cons_iff in Hcompany.
  - intros Hnone. apply Forall_app in Hnone. destruct Hnone as [Ht Hc].
    split; now apply firstCapture_none.
  - intros fetch resumeText. eexists.
    split; [apply analyze_returns|]. split; reflexivity.
Qed.

Lemma title_company_first_match_witness :
  let hiring := lit "We are hiring a senior backend engineer now, apply" in
  Matcher.positionTitle hiring = lit "senior backend engineer now"
  /\ Matcher.positionTitle (lit "nothing to see") = lit "Target Position"
  /\ Matcher.company (lit "nothing to see") = lit "Target Company".
Proof.
  intros hiring. split.
  - rewrite (proj1 (title_company_first_match hiring)
               [nth 0 Matcher.titlePatterns Eps]
               (nth 1 Matcher.titlePatterns Eps)
               [nth 2 Matcher.titlePatterns Eps]).
    + vm_compute. reflexivity.
    + reflexivity.
    + constructor; [|constructor]. unfold matchesIn. vm_compute.
      intros H. now apply H.
    + unfold matchesIn. vm_compute. discriminate.
  - apply (proj1 (proj2 (proj2 (title_company_first_match
                                  (lit "nothing to see"))))).
    unfold Matcher.titlePatterns, Matcher.companyPatterns, matchesIn.
    repeat constructor; vm_compute; intros H; now apply H.
Defined.

(** ** Improvement suggestions *)

Lemma summaryText_inv (v : option HF.json) (x : HF.json) :
  HF.summaryText v = Some x ->
  exists fields,
    v = Some (HF.JObject fields)
    /\ HF.getProp (lit "summary_text") fields = Some x.
Proof.
  destruct v as [[| | | | |fields]|]; cbn [HF.summaryText];
    try discriminate.
  intros H. now exists fields.
Qed.

(** [summaryOf] computes the summary of a successful call. *)
Lemma Summarized_iff (o : HF.Outcome) (s : jsstring) :
  Summarized o s <-> summaryOf o = Some s.
Proof.
  split.
  - intros H. destruct H as [fields others s Hprop Hs | top fields s H0 Hprop Hs];
      cbn [summaryOf HF.index0 hd_error HF.summaryText].
    + rewrite Hprop. destruct s; [contradiction | reflexivity].
    + rewrite H0. cbn [HF.summaryText]. rewrite Hprop.
      destruct s; [contradiction | reflexivity].
  - unfold summaryOf.
    destruct o as [|[] [data|]]; try discriminate.
    destruct (HF.index0 data) as [first|e] eqn:Hindex; [|discriminate].
    destruct (HF.summaryText first) as [[| | |[|c t]| |]|] eqn:Htext;
      try discriminate.
    intros H. injection H as <-.
    apply summaryText_inv in Htext. destruct Htext as (fields & -> & Hprop).
    destruct data as [| | |[|d u]|items|top]; cbn [HF.index0] in Hindex;
      try discriminate Hindex; injection Hindex as Hindex.
    + destruct items as [|x others]; [discriminate Hindex|].
      injection Hindex as ->. now constructor.
    + eapply summarized_object; [exact Hindex | exact Hprop | discriminate].
Qed.

Lemma improvementsOf_summary (o : HF.Outcome) (fallback : list jsstring) :
  improvementsOf o fallback
  = match summaryOf o with
    | Some s =>
        match firstn 3 (survivingFragments s) with
        | [] => fallback
        | kept => map (fun f => trim f ++ [46%N]) kept
        end
    | None => fallback
    end.
Proof.
  unfold improvementsOf, summaryOf, HF.summarize, bind.
  destruct o as [|[] [data|]]; try reflexivity.
  destruct (HF.index0 data) as [first|e]; [|reflexivity].
  destruct (HF.summaryText first) as [[|b|x|[|c t]|items|fields]|];
    cbn [HF.truthy]; try reflexivity.
  - now destruct b.
  - now destruct (negb (PrimFloat.eqb x 0) && PrimFloat.eqb x x).
  - unfold HF.suggestions, survivingFragments.
    now destruct (firstn 3 _).
Qed.

Lemma firstn_3_nil (A : Type) (l : list A) : firstn 3 l = [] <-> l = [].
Proof. destruct l; simpl; split; congruence. Qed.

(** C9: the report is always returned; [improvements] is the first 3
    surviving fragments, trimmed and with the period put back, when the call
    succeeded with a summary that has a surviving fragment, and the static
    list in every other case; the other fields do not depend on what the
    service did. *)
Theorem improvements_report (fetch : jsstring -> HF.Outcome)
  (resumeText jobDescription : jsstring) :
  let outcome := fetch (HF.prompt resumeText jobDescription) in
  exists rep,
    Matcher.analyzeWithHuggingFace fetch resumeText jobDescription
    = Returned rep
    /\ (forall s,
           Summarized outcome s -> survivingFragments s <> [] ->
           Report.improvements rep
           = map (fun f => trim f ++ [46%N])
               (firstn 3 (survivingFragments s)))
    /\ ((forall s, Summarized outcome s -> survivingFragments s = []) ->
        Report.improvements rep = Matcher.fallbackImprovements)
    /\ length Matcher.fallbackImprovements = 3
    /\ (forall fetch',
           exists rep',
             Matcher.analyzeWithHuggingFace fetch' resumeText jobDescription
             = Returned rep'
             /\ scoredFields rep' = scoredFields rep).
Proof.
  intros outcome. eexists. split; [apply analyze_returns|].
  cbn [Report.improvements]. fold outcome.
  rewrite improvementsOf_summary.
  split; [|split; [|split]].
  - intros s Hs Hkept. apply Summarized_iff in Hs. rewrite Hs.
    destruct (firstn 3 (survivingFragments s)) eqn:Hfirst; [|reflexivity].
    exfalso. apply Hkept. now apply firstn_3_nil.
  - intros Hnone. destruct (summaryOf outcome) as [s|] eqn:Hs; [|reflexivity].
    apply Summarized_iff, Hnone in Hs. now rewrite Hs.
  - reflexivity.
  - intros fetch'. eexists. split; [apply analyze_returns | reflexivity].
Qed.

Lemma improvements_report_witness :
  let summary :=
    lit "Add numbers to your resume. Ok. List the tools you used at work. " in
  let fetch := fun _ : jsstring =>
    HF.Responded true
      (Some (HF.JArray
               [HF.JObject [(lit "summary_text", HF.JString summary)]])) in
  exists rep,
    Matcher.analyzeWithHuggingFace fetch (lit "resume") (lit "job")
    = Returned rep
    /\ Report.improvements rep
       = [lit "Add numbers to your resume.";
          lit "List the tools you used at work."].
Proof.
  intros summary fetch.
  destruct (improvements_report fetch (lit "resume") (lit "job"))
    as (rep & Hrep & Hkept & _).
  exists rep. split; [exact Hrep|].
  rewrite (Hkept summary).
  - vm_compute. reflexivity.
  - apply summarized_array; [vm_compute; reflexivity | discriminate].
  - vm_compute. discriminate.
Defined.

(** ** Determinism *)

(** C10: for every pair of input texts, two evaluations of the analysis
    return reports with the same [matchScore], [matchLevel],
    [positionTitle], [company], [missingKeywords] and [skillsFound],
    whatever the summarization service answers in either of them: every
    field but [improvements] is fixed by the two texts. *)
Theorem scored_fields_deterministic
  (fetch fetch' : jsstring -> HF.Outcome)
  (resumeText jobDescription : jsstring) :
  exists rep rep',
    Matcher.analyzeWithHuggingFace fetch resumeText jobDescription
    = Returned rep
    /\ Matcher.analyzeWithHuggingFace fetch' resumeText jobDescription
       = Returned rep'
    /\ scoredFields rep = scoredFields rep'.
Proof.
  do 2 eexists.
  split; [apply analyze_returns|]. split; [apply analyze_returns|].
  reflexivity.
Qed.

(** ** Two requests, evaluated *)

Example labelled_position_request :
  exists rep,
    Matcher.analyzeWithHuggingFace (fun _ => HF.FetchRejected)
      (lit "Experienced Python developer with Docker and AWS skills")
      (lit "Looking for a Python Developer with Docker, Kubernetes and AWS experience. Position: Senior Python Developer")
    = Returned rep
    /\ Report.matchScore rep = 75%Z
    /\ Report.matchLevel rep = lit "Good Candidate Match"
    /\ Report.positionTitle rep = lit "Senior Python Developer"
    /\ Report.company rep = lit "Target Company"
    /\ Report.skillsFound rep = [lit "python"; lit "docker"; lit "aws"]
    /\ Report.missingKeywords rep = [lit "kubernetes"]
    /\ Report.improvements rep = Matcher.fallbackImprovements.
Proof.
  eexists. split; [apply analyze_returns|].
  vm_compute. repeat split; reflexivity.
Qed.

Example empty_resume_request :
  exists rep,
    Matcher.analyzeWithHuggingFace (fun _ => HF.Responded false None) []
      (lit "Looking for a Python Developer with Docker, Kubernetes and AWS experience. Position: Senior Python Developer")
    = Returned rep
    /\ Report.matchScore rep = 0%Z
    /\ Report.matchLevel rep = lit "Potential Candidate Match"
    /\ Report.skillsFound rep = []
    /\ Report.missingKeywords rep
       = [lit "python"; lit "docker"; lit "kubernetes"; lit "aws"].
Proof.
  eexists. split; [apply analyze_returns|].
  vm_compute. repeat split; reflexivity.
Qed.

(** ** More on keyword extraction *)

Lemma dedupFrom_NoDup (seen l : list jsstring) : NoDup (dedupFrom seen l).
Proof.
  revert seen. induction l as [|x l IH]; intros seen; simpl.
  - constructor.
  - destruct (has seen x); [apply IH|].
    constructor; [|apply IH].
    rewrite dedupFrom_In. intros [_ Hnot]. apply Hnot. now left.
Qed.

Lemma insertSorted_Permutation (A : Type) (before : A -> A -> bool) (x : A)
  (l : list A) :
  Permutation (insertSorted before x l) (x :: l).
Proof.
  induction l as [|y l IH]; simpl; [reflexivity|].
  destruct (before y x); [|reflexivity].
  rewrite IH. apply perm_swap.
Qed.

Lemma stableSort_Permutation (A : Type) (before : A -> A -> bool)
  (l : list A) :
  Permutation (stableSort before l) l.
Proof.
  unfold stableSort. induction l as [|x l IH]; simpl; [reflexivity|].
  rewrite insertSorted_Permutation. now constructor.
Qed.

Lemma filter_split_Permutation (A : Type) (p : A -> bool) (l : list A) :
  Permutation (filter p l ++ filter (fun x => negb (p x)) l) l.
Proof.
  induction l as [|x l IH]; simpl; [reflexivity|].
  destruct (p x); simpl.
  - now constructor.
  - rewrite <- Permutation_middle. now constructor.
Qed.

Lemma ownEntries_Permutation (A : Type) (l : list (jsstring * A)) :
  Permutation (ownEntries l) l.
Proof.
  unfold ownEntries.
  assert (Hfold : forall m : list (jsstring * A),
             Permutation (fold_right (@insertIndexKey A) [] m) m).
  { induction m as [|x m IH]; simpl; [reflexivity|].
    assert (Hins : forall e (k : list (jsstring * A)),
               Permutation (insertIndexKey e k) (e :: k)).
    { intros e k. induction k as [|y k IHk]; simpl; [reflexivity|].
      destruct (N.leb _ _); [reflexivity|]. rewrite IHk. apply perm_swap. }
    rewrite Hins. now constructor. }
  rewrite Hfold. apply filter_split_Permutation.
Qed.

Lemma NoDup_firstn (A : Type) (n : nat) (l : list A) :
  NoDup l -> NoDup (firstn n l).
Proof.
  intros H. revert n. induction H as [|x l Hx _ IH]; intros [|n]; simpl;
    try constructor.
  - intros Hin. apply Hx. now apply In_firstn in Hin.
  - apply IH.
Qed.

Lemma termCount_keys (normalizedText : jsstring) :
  map fst (Matcher.termCount normalizedText)
  = Matcher.allTerms normalizedText.
Proof.
  unfold Matcher.termCount. rewrite map_map. simpl. apply map_id.
Qed.

(** X1: extraction returns at most 30 keywords and no keyword twice. *)
Theorem extractKeywords_distinct (text : jsstring) :
  length (Matcher.extractKeywords text) <= 30
  /\ NoDup (Matcher.extractKeywords text).
Proof.
  split; [apply extractKeywords_length|].
  unfold Matcher.extractKeywords.
  rewrite <- firstn_map. apply NoDup_firstn.
  eapply Permutation_NoDup.
  - apply Permutation_sym, Permutation_map.
    etransitivity; [apply stableSort_Permutation|].
    apply ownEntries_Permutation.
  - rewrite termCount_keys. apply dedupFrom_NoDup.
Qed.

(** The comparator is a strict weak order. *)
Lemma rankedBefore_asym (a b : jsstring * nat) :
  Matcher.rankedBefore a b = true -> Matcher.rankedBefore b a = false.
Proof.
  unfold Matcher.rankedBefore.
  destruct (isTechnicalTerm (fst a)), (isTechnicalTerm (fst b)); simpl;
    try congruence.
  - rewrite Nat.ltb_lt, Nat.ltb_ge. lia.
  - rewrite Nat.ltb_lt, Nat.ltb_ge. lia.
Qed.

Lemma rankedBefore_negative_trans (a b c : jsstring * nat) :
  Matcher.rankedBefore a b = false -> Matcher.rankedBefore b c = false ->
  Matcher.rankedBefore a c = false.
Proof.
  unfold Matcher.rankedBefore.
  destruct (isTechnicalTerm (fst a)), (isTechnicalTerm (fst b)),
    (isTechnicalTerm (fst c)); simpl; try congruence;
    rewrite !Nat.ltb_ge; lia.
Qed.

Lemma insertSorted_ranked (x : jsstring * nat) (l : list (jsstring * nat)) :
  StronglySorted rankedNotAfter l ->
  StronglySorted rankedNotAfter (insertSorted Matcher.rankedBefore x l).
Proof.
  induction 1 as [|y l Hsorted IH Hy]; simpl.
  - repeat constructor.
  - destruct (Matcher.rankedBefore y x) eqn:Hyx.
    + constructor; [exact IH|].
      apply Forall_forall. intros z Hz.
      apply insertSorted_In in Hz. destruct Hz as [-> | Hz].
      * unfold rankedNotAfter. now apply rankedBefore_asym.
      * rewrite Forall_forall in Hy. now apply Hy.
    + constructor; [now constructor|].
      constructor; [exact Hyx|].
      eapply Forall_impl; [|exact Hy].
      intros z Hz. unfold rankedNotAfter in *.
      eapply rankedBefore_negative_trans; eassumption.
Qed.

Lemma stableSort_ranked (l : list (jsstring * nat)) :
  StronglySorted rankedNotAfter (stableSort Matcher.rankedBefore l).
Proof.
  unfold stableSort. induction l as [|x l IH]; simpl.
  - constructor.
  - now apply insertSorted_ranked.
Qed.






Lemma startsWith_app (s prefix : jsstring) :
  startsWith s prefix = true <-> exists rest, s = prefix ++ rest.
Proof.
  revert s. induction prefix as [|p prefix IH]; intros s.
  - split; [intros _; now exists s | now destruct s].
  - destruct s as [|c s]; simpl.
    + split; [discriminate | intros (rest & H); discriminate H].
    + rewrite andb_true_iff, N.eqb_eq, IH. split.
      * intros (-> & rest & ->). now exists rest.
      * intros (rest & H). injection H as -> ->. split; [reflexivity|].
        now exists rest.
Qed.

Lemma includes_Occurs (s sub : jsstring) :
  includes s sub = true <-> Occurs sub s.
Proof.
  unfold Occurs. induction s as [|c s IH].
  - cbn [includes]. rewrite orb_false_r, startsWith_app. split.
    + intros (rest & H). now exists [], rest.
    + intros (before & after & H). symmetry in H.
      apply app_eq_nil in H. destruct H as [-> H].
      apply app_eq_nil in H. destruct H as [-> ->]. now exists [].
  - cbn [includes]. rewrite orb_true_iff, startsWith_app, IH. split.
    + intros [(rest & H) | (before & after & H)].
      * now exists [], rest.
      * exists (c :: before), after. simpl. now rewrite H.
    + intros ([|d before] & after & H).
      * left. now exists after.
      * right. injection H as _ H. now exists before, after.
Qed.

(** A token is a piece of the text it was split from. *)
Lemma split_Occurs (s cur before : jsstring) (inSep : bool) (w : jsstring) :
  In w (splitWhitespaceFrom cur inSep s) ->
  Occurs w (before ++ rev cur ++ s).
Proof.
  revert cur before inSep.
  induction s as [|c s IH]; intros cur before inSep Hin.
  - simpl in Hin. destruct Hin as [<- | []]. now exists before, [].
  - simpl in Hin. destruct (isWhiteSpace c).
    + assert (Hrest : In w (splitWhitespaceFrom [] true s) ->
                      Occurs w (before ++ rev cur ++ c :: s)).
      { intros H. apply (IH [] (before ++ rev cur ++ [c])) in H.
        simpl in H. now rewrite <- !app_assoc in H. }
      destruct inSep; [now apply Hrest|].
      destruct Hin as [<- | Hin]; [|now apply Hrest].
      now exists before, (c :: s).
    + apply (IH (c :: cur) before) in Hin. simpl in Hin.
      now rewrite <- app_assoc in Hin.
Qed.

Lemma Occurs_Forall (P : N -> Prop) (sub s : jsstring) :
  Occurs sub s -> Forall P s -> Forall P sub.
Proof.
  intros (before & after & ->) H.
  apply Forall_app in H. destruct H as [_ H].
  now apply Forall_app in H.
Qed.

Lemma normalizedUnit_not_terminator (c : N) :
  normalizedUnit c = true -> isLineTerminator c = false.
Proof.
  unfold normalizedUnit, isLineTerminator, isAsciiLower, isDigit.
  rewrite !orb_true_iff, !between_iff, !N.eqb_eq. intros H.
  destruct (N.eqb_spec c 10); [lia|]. destruct (N.eqb_spec c 13); [lia|].
  destruct (N.eqb_spec c 8232); [lia|].
  destruct (N.eqb_spec c 8233); [lia|]. reflexivity.
Qed.

Lemma termMatchesAt_self (term rest : jsstring) :
  Forall (fun c => isLineTerminator c = false) term ->
  Matcher.termMatchesAt term (term ++ rest) = true.
Proof.
  induction 1 as [|c term Hc _ IH]; [reflexivity|].
  cbn [app Matcher.termMatchesAt]. rewrite IH, andb_true_r.
  unfold Matcher.termUnitMatches. rewrite Hc.
  destruct (N.eqb c 46); [reflexivity | apply N.eqb_refl].
Qed.

(** A term that occurs in the text is counted at least once. *)
Lemma countOccurrences_positive (text term : jsstring) :
  term <> [] -> Forall (fun c => isLineTerminator c = false) term ->
  Occurs term text -> 1 <= Matcher.countOccurrences text term.
Proof.
  intros Hne Hterm (before & after & ->). unfold Matcher.countOccurrences.
  induction before as [|x before IH].
  - destruct term as [|p term]; [contradiction|].
    change (1 <= Matcher.countMatchesFrom (p :: term) 0
                   (p :: (term ++ after))).
    cbn [Matcher.countMatchesFrom].
    change (p :: term ++ after) with ((p :: term) ++ after).
    rewrite termMatchesAt_self by assumption. lia.
  - cbn [app Matcher.countMatchesFrom].
    destruct (Matcher.termMatchesAt term (x :: before ++ term ++ after));
      [lia | exact IH].
Qed.

Lemma multiWord_catalog_terms :
  forallb
    (fun term =>
       implb (includes term [32%N])
         (Nat.ltb 2 (length term) && negb (isStopWord term)))
    technicalTerms = true.
Proof. vm_compute. reflexivity. Qed.

(** X3: every extracted keyword has more than 2 units, is not a stop word,
    is made of [[a-z0-9_ .-]] only, occurs in the normalized text, and is
    counted there at least once. *)
Theorem extractKeywords_members (text : jsstring) :
  Forall
    (fun k =>
       2 < length k
       /\ isStopWord k = false
       /\ Forall (fun c => normalizedUnit c = true) k
       /\ includes (Matcher.normalize text) k = true
       /\ 1 <= Matcher.countOccurrences (Matcher.normalize text) k)
    (Matcher.extractKeywords text).
Proof.
  apply Forall_forall. intros k Hk.
  apply extractKeywords_allTerms in Hk.
  unfold Matcher.allTerms in Hk. rewrite dedup_In, in_app_iff in Hk.
  assert (Hfacts : 2 < length k /\ isStopWord k = false
                   /\ Occurs k (Matcher.normalize text)).
  { destruct Hk as [Hmulti | Hword].
    - unfold Matcher.multiWordTerms in Hmulti.
      apply filter_In in Hmulti. destruct Hmulti as [Hcat Hboth].
      apply andb_true_iff in Hboth. destruct Hboth as [Hspace Hin].
      pose proof multiWord_catalog_terms as Hall.
      rewrite forallb_forall in Hall. apply Hall in Hcat.
      rewrite Hspace in Hcat. simpl in Hcat.
      apply andb_true_iff in Hcat. destruct Hcat as [Hlen Hstop].
      apply Nat.ltb_lt in Hlen. apply negb_true_iff in Hstop.
      repeat split; try assumption. now apply includes_Occurs.
    - unfold Matcher.words, Matcher.keepWord in Hword.
      apply filter_In in Hword. destruct Hword as [Htoken Hkeep].
      rewrite !andb_true_iff, negb_true_iff, Nat.ltb_lt in Hkeep.
      repeat split; try tauto.
      apply (split_Occurs _ [] []) in Htoken. exact Htoken. }
  destruct Hfacts as (Hlen & Hstop & Hocc).
  assert (Hunits : Forall (fun c => normalizedUnit c = true) k)
    by (eapply Occurs_Forall; [exact Hocc | apply normalize_alphabet]).
  repeat split; try assumption.
  - now apply includes_Occurs.
  - apply countOccurrences_positive; try assumption.
    + intros ->. simpl in Hlen. lia.
    + eapply Forall_impl; [|exact Hunits].
      apply normalizedUnit_not_terminator.
Qed.

(** ** The normalizer, once more *)

Lemma normalizedUnit_kept (c : N) :
  normalizedUnit c = true -> Matcher.keptByNormalizer c = true.
Proof.
  unfold normalizedUnit, Matcher.keptByNormalizer, isWordChar.
  destruct (isAsciiLower c), (isDigit c), (N.eqb c 95), (N.eqb c 46),
    (N.eqb c 45), (isAsciiUpper c); simpl; try reflexivity;
    rewrite ?orb_true_r; try reflexivity; try discriminate.
  destruct (N.eqb_spec c 32) as [-> | _]; [reflexivity | discriminate].
Qed.

Lemma normalizedUnit_whitespace (c : N) :
  normalizedUnit c = true -> isWhiteSpace c = true -> c = 32%N.
Proof.
  unfold normalizedUnit, isWhiteSpace, isAsciiLower, isDigit.
  rewrite !orb_true_iff, !between_iff, !N.eqb_eq. lia.
Qed.

Lemma collapse_fixed (inRun : bool) (s : jsstring) :
  noWhitespaceRun s = true ->
  Forall (fun c => isWhiteSpace c = true -> c = 32%N) s ->
  (inRun = true ->
   match s with
   | [] => True
   | c :: _ => isWhiteSpace c = false
   end) ->
  collapseWhitespace inRun s = s.
Proof.
  intros Hrun Hall. revert inRun Hrun.
  induction Hall as [|c s Hc _ IH]; intros inRun Hrun Hhead;
    [reflexivity|].
  cbn [collapseWhitespace].
  assert (Htail : noWhitespaceRun s = true).
  { cbn [noWhitespaceRun] in Hrun. destruct s; [reflexivity|].
    now apply andb_true_iff in Hrun. }
  destruct (isWhiteSpace c) eqn:Hws.
  - destruct inRun; [specialize (Hhead eq_refl); congruence|].
    rewrite (Hc eq_refl). f_equal. apply IH; [exact Htail|].
    intros _. cbn [noWhitespaceRun] in Hrun.
    destruct s as [|d s]; [exact I|].
    apply andb_true_iff in Hrun. destruct Hrun as [Hpair _].
    rewrite Hws in Hpair. simpl in Hpair. now apply negb_true_iff in Hpair.
  - f_equal. apply IH; [exact Htail | discriminate].
Qed.

(** X4: normalizing a normalized text changes nothing. *)
Theorem normalize_idempotent (text : jsstring) :
  Matcher.normalize (Matcher.normalize text) = Matcher.normalize text.
Proof.
  pose proof (normalize_alphabet text) as Hunits.
  set (t := Matcher.normalize text) in *.
  unfold Matcher.normalize at 1.
  rewrite (toLowerCase_normalized Hunits).
  assert (Hmap : map (fun c => if Matcher.keptByNormalizer c then c
                               else 32%N) t = t).
  { clear -Hunits. induction Hunits as [|c s Hc _ IH]; [reflexivity|].
    simpl. now rewrite (normalizedUnit_kept _ Hc), IH. }
  rewrite Hmap. apply collapse_fixed.
  - apply collapse_noWhitespaceRun.
  - eapply Forall_impl; [|exact Hunits].
    intros c. apply normalizedUnit_whitespace.
  - discriminate.
Qed.

(** ** More on scoring *)

Lemma roundHalfUp_nonneg (num den : Z) :
  (0 <= num)%Z -> (0 < den)%Z -> (0 <= roundHalfUp num den)%Z.
Proof. intros Hn Hd. unfold roundHalfUp. apply Z.div_pos; lia. Qed.

Lemma roundedShare_100_nonneg (a b : nat) :
  a <= b -> 1 <= b <= 30 -> (0 <= Matcher.roundedShare a b 100%float)%Z.
Proof.
  intros Hab Hb. rewrite roundedShare_100 by assumption.
  apply roundHalfUp_nonneg; lia.
Qed.

Lemma roundedShare_85_nonneg (a b : nat) :
  a <= b -> 1 <= b <= 30 -> (0 <= Matcher.roundedShare a b 85%float)%Z.
Proof.
  intros Hab Hb.
  destruct (Nat.eq_dec (10 * a) (7 * b)) as [Hratio | Hratio].
  - assert (Hcases : (a = 7 /\ b = 10) \/ (a = 14 /\ b = 20)
                     \/ (a = 21 /\ b = 30)) by lia.
    destruct roundedShare_85_seven_tenths as (H1 & H2 & H3 & _).
    destruct Hcases as [[-> ->] | [[-> ->] | [-> ->]]];
      rewrite ?H1, ?H2, ?H3; lia.
  - rewrite roundedShare_85 by assumption.
    apply roundHalfUp_nonneg; lia.
Qed.

(** X5: for any two texts the score in the report lies between 0 and
    95. *)
Theorem matchScore_range (fetch : jsstring -> HF.Outcome)
  (resumeText jobDescription : jsstring) :
  exists rep,
    Matcher.analyzeWithHuggingFace fetch resumeText jobDescription
    = Returned rep
    /\ (0 <= Report.matchScore rep <= 95)%Z.
Proof.
  eexists. split; [apply analyze_returns|]. cbn [Report.matchScore].
  split; [|apply matchScore_le_95].
  set (rk := Matcher.extractKeywords resumeText).
  set (jk := Matcher.extractKeywords jobDescription).
  assert (Hjk : length jk <= 30) by apply extractKeywords_length.
  pose proof (technicalMatches_le rk jk) as Htm.
  pose proof (technicalRequirements_le jk) as Htr.
  pose proof (matchedSkills_le rk jk) as Hms.
  unfold Matcher.matchScore. apply Z.min_glb; [|lia].
  destruct (Nat.ltb_spec 0 (length (Matcher.technicalRequirements jk))).
  - apply roundedShare_100_nonneg; lia.
  - apply roundedShare_85_nonneg; lia.
Qed.

(** X6: when no job-description keyword is matched by the resume (an empty
    resume, for one), the score is 0. *)
Theorem matchScore_nothing_matched (fetch : jsstring -> HF.Outcome)
  (resumeText jobDescription : jsstring) :
  Matcher.matchedSkills (Matcher.extractKeywords resumeText)
    (Matcher.extractKeywords jobDescription) = [] ->
  exists rep,
    Matcher.analyzeWithHuggingFace fetch resumeText jobDescription
    = Returned rep
    /\ Report.matchScore rep = 0%Z.
Proof.
  intros Hnone. eexists. split; [apply analyze_returns|].
  cbn [Report.matchScore].
  set (rk := Matcher.extractKeywords resumeText) in *.
  set (jk := Matcher.extractKeywords jobDescription) in *.
  assert (Hjk : length jk <= 30) by apply extractKeywords_length.
  pose proof (technicalRequirements_le jk) as Htr.
  unfold Matcher.matchScore, Matcher.technicalMatches. rewrite Hnone.
  cbn [filter length].
  destruct (Nat.ltb_spec 0 (length (Matcher.technicalRequirements jk))).
  - rewrite roundedShare_100 by lia. unfold roundHalfUp.
    rewrite Z.div_small by lia. reflexivity.
  - rewrite roundedShare_85 by lia. unfold roundHalfUp.
    rewrite Z.div_small by lia. reflexivity.
Qed.

Lemma matchScore_nothing_matched_witness :
  exists rep,
    Matcher.analyzeWithHuggingFace (fun _ => HF.FetchRejected) []
      (lit "Python and Docker wanted")
    = Returned rep
    /\ Report.matchScore rep = 0%Z.
Proof.
  apply (@matchScore_nothing_matched (fun _ => HF.FetchRejected) []
           (lit "Python and Docker wanted")).
  vm_compute. reflexivity.
Defined.

Lemma filter_filter_implied (A : Type) (p q : A -> bool) (l : list A) :
  (forall x, In x l -> p x = true -> q x = true) ->
  filter p (filter q l) = filter p l.
Proof.
  induction l as [|x l IH]; intros H; [reflexivity|]. simpl.
  assert (Hl : filter p (filter q l) = filter p l)
    by (apply IH; intros y Hy; apply H; now right).
  destruct (q x) eqn:Hq; simpl.
  - now rewrite Hl.
  - destruct (p x) eqn:Hp; [|exact Hl].
    rewrite (H x (or_introl eq_refl) Hp) in Hq. discriminate Hq.
Qed.

Lemma firstn_5_nil (A : Type) (l : list A) : firstn 5 l = [] -> l = [].
Proof. destruct l; simpl; congruence. Qed.

Lemma firstn_6_nil (A : Type) (l : list A) : firstn 6 l = [] -> l = [].
Proof. destruct l; simpl; congruence. Qed.

(** X7: when the job description has a catalog keyword and the report lists
    no missing keyword, the score is 95: a full match is shown as 95, never
    as 100. *)
Theorem matchScore_nothing_missing (fetch : jsstring -> HF.Outcome)
  (resumeText jobDescription : jsstring) (rep : Report.t) :
  Matcher.analyzeWithHuggingFace fetch resumeText jobDescription
  = Returned rep ->
  (exists k, In k (Matcher.extractKeywords jobDescription)
             /\ isTechnicalTerm k = true) ->
  Report.missingKeywords rep = [] ->
  Report.matchScore rep = 95%Z.
Proof.
  rewrite analyze_returns. intros Hrep (k & Hk & Htech) Hmissing.
  injection Hrep as <-. cbn [Report.matchScore Report.missingKeywords] in *.
  set (rk := Matcher.extractKeywords resumeText) in *.
  set (jk := Matcher.extractKeywords jobDescription) in *.
  apply firstn_5_nil in Hmissing. unfold Matcher.missingKeywords in Hmissing.
  apply firstn_6_nil in Hmissing.
  assert (Hall : forall x, In x jk ->
            isTechnicalTerm (toLowerCase x) = true ->
            has (Matcher.resumeSet rk) (toLowerCase x) = true).
  { intros x Hx Hxt.
    destruct (has (Matcher.resumeSet rk) (toLowerCase x)) eqn:Hhas;
      [reflexivity|].
    assert (Hin : In x []); [|contradiction].
    rewrite <- Hmissing. apply filter_In. split; [exact Hx|].
    now rewrite Hhas, Hxt. }
  assert (Hsame : Matcher.technicalMatches rk jk
                  = Matcher.technicalRequirements jk).
  { unfold Matcher.technicalMatches, Matcher.matchedSkills,
      Matcher.technicalRequirements.
    now apply filter_filter_implied. }
  assert (Hpos : 1 <= length (Matcher.technicalRequirements jk)).
  { assert (Hin : In k (Matcher.technicalRequirements jk)).
    { apply filter_In. split; [exact Hk|].
      now rewrite (extractKeywords_lowercase jobDescription k Hk). }
    destruct (Matcher.technicalRequirements jk);
      [contradiction | simpl; lia]. }
  assert (Hmax : length (Matcher.technicalRequirements jk) <= 30).
  { etransitivity; [apply technicalRequirements_le|].
    apply extractKeywords_length. }
  unfold Matcher.matchScore. rewrite Hsame.
  destruct (Nat.ltb_spec 0 (length (Matcher.technicalRequirements jk)));
    [|lia].
  rewrite roundedShare_100 by lia.
  set (n := Z.of_nat (length (Matcher.technicalRequirements jk))).
  assert (Hround : roundHalfUp (100 * n) n = 100%Z).
  { unfold roundHalfUp. symmetry.
    apply (Z.div_unique _ _ 100 n); lia. }
  rewrite Hround. reflexivity.
Qed.

Lemma matchScore_nothing_missing_witness :
  exists rep,
    Matcher.analyzeWithHuggingFace (fun _ => HF.FetchRejected)
      (lit "Python and Docker wanted") (lit "Python and Docker wanted")
    = Returned rep
    /\ Report.matchScore rep = 95%Z.
Proof.
  eexists. split; [apply analyze_returns|].
  apply (@matchScore_nothing_missing (fun _ => HF.FetchRejected)
           (lit "Python and Docker wanted")
           (lit "Python and Docker wanted")).
  - apply analyze_returns.
  - exists (lit "python"). split; [member | vm_compute; reflexivity].
  - vm_compute. reflexivity.
Defined.

Lemma resumeSet_extracted (text : jsstring) :
  Matcher.resumeSet (Matcher.extractKeywords text)
  = Matcher.extractKeywords text.
Proof.
  unfold Matcher.resumeSet. rewrite <- (map_id (Matcher.extractKeywords text))
    at 2.
  apply map_ext_in. intros k Hk. now apply extractKeywords_lowercase in Hk.
Qed.

(** X8: every skill shown as found is a keyword of the resume, none of them
    is also listed as missing, and at most 8 are shown. *)
Theorem skillsFound_from_resume (fetch : jsstring -> HF.Outcome)
  (resumeText jobDescription : jsstring) :
  exists rep,
    Matcher.analyzeWithHuggingFace fetch resumeText jobDescription
    = Returned rep
    /\ Forall (fun k => In k (Matcher.extractKeywords resumeText))
         (Report.skillsFound rep)
    /\ Forall (fun k => ~ In k (Report.missingKeywords rep))
         (Report.skillsFound rep)
    /\ length (Report.skillsFound rep) <= 8.
Proof.
  eexists. split; [apply analyze_returns|].
  cbn [Report.skillsFound Report.missingKeywords].
  set (rk := Matcher.extractKeywords resumeText).
  set (jk := Matcher.extractKeywords jobDescription).
  assert (Hshown : forall k, In k (Matcher.displaySkills rk jk) ->
            In k rk /\ has (Matcher.resumeSet rk) (toLowerCase k) = true).
  { intros k Hk. rewrite displaySkills_lists in Hk.
    destruct (Matcher.matchedSkills rk jk) eqn:Hmatched.
    - apply In_firstn, filter_In in Hk. destruct Hk as [Hk _].
      split; [exact Hk|]. apply has_iff. unfold Matcher.resumeSet.
      now apply in_map.
    - rewrite <- Hmatched in Hk. apply In_firstn in Hk.
      unfold Matcher.matchedSkills in Hk. apply filter_In in Hk.
      destruct Hk as [Hjk Hhas]. split; [|exact Hhas].
      apply has_iff in Hhas. unfold rk in Hhas.
      rewrite resumeSet_extracted in Hhas.
      now rewrite (extractKeywords_lowercase jobDescription k Hjk) in Hhas. }
  split; [|split].
  - apply Forall_forall. intros k Hk. now apply Hshown in Hk.
  - apply Forall_forall. intros k Hk Hmissing. apply Hshown in Hk.
    destruct Hk as [_ Hhas].
    unfold Matcher.missingKeywords in Hmissing.
    do 2 apply In_firstn in Hmissing. apply filter_In in Hmissing.
    destruct Hmissing as [_ Hnot]. rewrite Hhas in Hnot. discriminate Hnot.
  - rewrite displaySkills_lists.
    destruct (Matcher.matchedSkills rk jk) eqn:Hmatched.
    + etransitivity; [apply firstn_le_length | lia].
    + apply firstn_le_length.
Qed.

(** ** Trimming *)

Lemma dropWhile_Forall (P : N -> Prop) (p : N -> bool) (s : jsstring) :
  Forall P s -> Forall P (dropWhile p s).
Proof.
  induction 1 as [|c s Hc Hs IH]; simpl; [constructor|].
  destruct (p c); [exact IH | now constructor].
Qed.

Lemma trim_Forall (P : N -> Prop) (s : jsstring) :
  Forall P s -> Forall P (trim s).
Proof.
  intros H. unfold trim.
  apply Forall_rev, dropWhile_Forall, Forall_rev, dropWhile_Forall, H.
Qed.

Lemma dropWhile_head (p : N -> bool) (s : jsstring) :
  match dropWhile p s with
  | [] => True
  | c :: _ => p c = false
  end.
Proof.
  induction s as [|c s IH]; simpl; [exact I|].
  destruct (p c) eqn:Hc; [exact IH | exact Hc].
Qed.

Lemma dropWhile_fixed (p : N -> bool) (s : jsstring) :
  match s with
  | [] => True
  | c :: _ => p c = false
  end ->
  dropWhile p s = s.
Proof. destruct s as [|c s]; simpl; [reflexivity|]. now intros ->. Qed.

Lemma dropWhile_suffix (p : N -> bool) (s : jsstring) :
  exists dropped, s = dropped ++ dropWhile p s.
Proof.
  induction s as [|c s (dropped & IH)]; simpl; [now exists []|].
  destruct (p c); [|now exists []].
  exists (c :: dropped). simpl. now rewrite <- IH.
Qed.

Lemma trim_idempotent (s : jsstring) : trim (trim s) = trim s.
Proof.
  unfold trim.
  set (a := dropWhile isWhiteSpace s).
  set (b := dropWhile isWhiteSpace (rev a)).
  assert (Hb : dropWhile isWhiteSpace b = b)
    by apply dropWhile_fixed, dropWhile_head.
  assert (Hrev : dropWhile isWhiteSpace (rev b) = rev b).
  { apply dropWhile_fixed.
    destruct (dropWhile_suffix isWhiteSpace (rev a)) as (dropped & Hsplit).
    fold b in Hsplit.
    assert (Ha : a = rev b ++ rev dropped).
    { rewrite <- rev_app_distr, <- Hsplit. now rewrite rev_involutive. }
    pose proof (dropWhile_head isWhiteSpace s) as Hhead. fold a in Hhead.
    rewrite Ha in Hhead. destruct (rev b); [exact I | exact Hhead]. }
  rewrite Hrev, rev_involutive, Hb. reflexivity.
Qed.

(** ** More on improvement suggestions *)

Lemma splitOn_pieces (sep : N) (s cur piece : jsstring) :
  ~ In sep cur -> In piece (splitOnFrom sep cur s) -> ~ In sep piece.
Proof.
  revert cur. induction s as [|c s IH]; intros cur Hcur Hin; simpl in Hin.
  - destruct Hin as [<- | []]. now rewrite <- in_rev.
  - destruct (N.eqb_spec c sep) as [-> | Hne].
    + destruct Hin as [<- | Hin]; [now rewrite <- in_rev|].
      now apply (IH []).
    + apply (IH (c :: cur)); [|exact Hin].
      intros [E | H]; [congruence | contradiction].
Qed.

(** X9: the report always carries between 1 and 3 improvements; they are
    the static list, or each is a trimmed sentence of more than 10 units
    without a period inside, followed by one period. *)
Theorem improvements_shape (fetch : jsstring -> HF.Outcome)
  (resumeText jobDescription : jsstring) :
  exists rep,
    Matcher.analyzeWithHuggingFace fetch resumeText jobDescription
    = Returned rep
    /\ 1 <= length (Report.improvements rep) <= 3
    /\ (Report.improvements rep = Matcher.fallbackImprovements
        \/ Forall
             (fun x =>
                exists sentence,
                  x = sentence ++ [46%N]
                  /\ 10 < length sentence
                  /\ ~ In 46%N sentence
                  /\ trim sentence = sentence)
             (Report.improvements rep)).
Proof.
  eexists. split; [apply analyze_returns|]. cbn [Report.improvements].
  rewrite improvementsOf_summary.
  destruct (summaryOf _) as [s|]; [|split; [simpl; lia | now left]].
  destruct (firstn 3 (survivingFragments s)) as [|f kept] eqn:Hkept;
    [split; [simpl; lia | now left]|].
  split.
  - rewrite length_map, <- Hkept. split; [|apply firstn_le_length].
    rewrite Hkept. simpl. lia.
  - right. apply Forall_map, Forall_forall. intros g Hg.
    rewrite <- Hkept in Hg. apply In_firstn in Hg.
    unfold survivingFragments in Hg. apply filter_In in Hg.
    destruct Hg as [Hpiece Hlong]. apply Nat.ltb_lt in Hlong.
    exists (trim g). repeat split; try assumption.
    + intros Hin. apply (splitOn_pieces 46 s [] g); auto.
      assert (Hall : Forall (fun c => c <> 46%N) (trim g)).
      { apply trim_Forall, Forall_forall. intros c Hc ->.
        apply (splitOn_pieces 46 s [] g); auto. }
      rewrite Forall_forall in Hall. now apply Hall in Hin.
    + apply trim_idempotent.
Qed.

(** X10: only the first 200 units of each text reach the summarization
    service: two requests whose texts agree that far send the same prompt
    and get the same improvements. *)
Theorem improvements_from_excerpts (fetch : jsstring -> HF.Outcome)
  (resumeText resumeText' jobDescription jobDescription' : jsstring) :
  firstn 200 resumeText = firstn 200 resumeText' ->
  firstn 200 jobDescription = firstn 200 jobDescription' ->
  HF.prompt resumeText jobDescription
  = HF.prompt resumeText' jobDescription'
  /\ length (HF.prompt resumeText jobDescription) <= 531
  /\ exists rep rep',
       Matcher.analyzeWithHuggingFace fetch resumeText jobDescription
       = Returned rep
       /\ Matcher.analyzeWithHuggingFace fetch resumeText' jobDescription'
          = Returned rep'
       /\ Report.improvements rep = Report.improvements rep'.
Proof.
  intros Hr Hj.
  assert (Hprompt : HF.prompt resumeText jobDescription
                    = HF.prompt resumeText' jobDescription').
  { unfold HF.prompt, substring0. now rewrite Hr, Hj. }
  split; [exact Hprompt|]. split.
  - unfold HF.prompt, substring0. rewrite !length_app.
    pose proof (firstn_le_length 200 resumeText).
    pose proof (firstn_le_length 200 jobDescription).
    cbn [length lit list_ascii_of_string map]. lia.
  - do 2 eexists. split; [apply analyze_returns|].
    split; [apply analyze_returns|].
    cbn [Report.improvements]. now rewrite Hprompt.
Qed.

Lemma improvements_from_excerpts_witness :
  HF.prompt (repeat 97%N 200 ++ lit "x") (lit "job")
  = HF.prompt (repeat 97%N 200 ++ lit "y z") (lit "job").
Proof.
  apply (@improvements_from_excerpts (fun _ => HF.FetchRejected)
           (repeat 97%N 200 ++ lit "x") (repeat 97%N 200 ++ lit "y z")
           (lit "job") (lit "job")); vm_compute; reflexivity.
Defined.

(** ** What a title or a company can contain *)

Lemma Consumes_units (P : N -> Prop) (r : regex)
  (a b : jsstring * option jsstring) :
  Consumes r a b -> unitsSatisfy P r ->
  exists w, fst a = w ++ fst b /\ Forall P w.
Proof.
  induction 1; cbn [unitsSatisfy fst] in *; intros Hunits;
    try (exists []; split; [reflexivity | constructor]).
  - exists [c]. split; [reflexivity|]. repeat constructor. now apply Hunits.
  - destruct Hunits as [H1 H2].
    destruct (IHConsumes1 H1) as (w1 & E1 & F1).
    destruct (IHConsumes2 H2) as (w2 & E2 & F2).
    exists (w1 ++ w2). split; [|now apply Forall_app].
    now rewrite E1, E2, app_assoc.
  - now apply IHConsumes.
  - now apply IHConsumes.
  - destruct (IHConsumes1 Hunits) as (w1 & E1 & F1).
    destruct (IHConsumes2 Hunits) as (w2 & E2 & F2).
    exists (w1 ++ w2). split; [|now apply Forall_app].
    now rewrite E1, E2, app_assoc.
  - now apply IHConsumes.
Qed.

Lemma firstn_consumed (w rest : jsstring) :
  firstn (length (w ++ rest) - length rest) (w ++ rest) = w.
Proof.
  rewrite length_app, Nat.add_sub, firstn_app, Nat.sub_diag, firstn_all.
  simpl. apply app_nil_r.
Qed.

Lemma Consumes_group_units (P : N -> Prop) (r : regex)
  (a b : jsstring * option jsstring) :
  Consumes r a b -> groupSatisfies P r ->
  exists g, snd b = Some g /\ Forall P g.
Proof.
  induction 1; cbn [groupSatisfies snd] in *; intros Hgroup;
    try contradiction.
  - destruct Hgroup as [[H1 Hfree] | H2].
    + rewrite (Consumes_groupFree H0 Hfree). now apply IHConsumes1.
    + now apply IHConsumes2.
  - destruct Hgroup as [_ Hunits].
    destruct (Consumes_units P H Hunits) as (w & E & Hw).
    cbn [fst] in E. subst s. rewrite firstn_consumed. now exists w.
Qed.

Lemma searchFrom_group_units (P : N -> Prop) (r : regex) (s : jsstring)
  (prev : option N) (cap : option jsstring) :
  groupSatisfies P r -> searchFrom r prev s = Some cap ->
  exists g, cap = Some g /\ Forall P g.
Proof.
  intros Hgroup. revert prev.
  assert (Hrun : forall prev0 s0 cap0,
             run r prev0 s0 None (fun _ _ c => Some c) = Some cap0 ->
             exists g, cap0 = Some g /\ Forall P g).
  { intros prev0 s0 cap0 H. apply run_sound in H.
    destruct H as (prev1 & s1 & cap1 & Hk & Hstep). injection Hk as ->.
    exact (Consumes_group_units P Hstep Hgroup). }
  induction s as [|x s IH]; intros prev Hsearch; cbn [searchFrom] in Hsearch.
  - destruct (run r prev [] None (fun _ _ c => Some c)) as [cap0|] eqn:H;
      [|discriminate Hsearch].
    injection Hsearch as ->. now apply Hrun in H.
  - destruct (run r prev (x :: s) None (fun _ _ c => Some c)) as [cap0|]
      eqn:H.
    + injection Hsearch as ->. now apply Hrun in H.
    + now apply IH in Hsearch.
Qed.

Lemma firstCapture_units (P : N -> Prop) (patterns : list regex)
  (text fallback : jsstring) :
  Forall (groupSatisfies P) patterns -> Forall P fallback ->
  Forall P (Matcher.firstCapture patterns text fallback).
Proof.
  intros Hpatterns Hfallback.
  induction Hpatterns as [|p patterns Hp _ IH];
    cbn [Matcher.firstCapture]; [exact Hfallback|].
  destruct (firstMatch p text) as [[[|c g]|]|] eqn:Hmatch; try exact IH.
  apply (searchFrom_group_units P _ _ _ Hp) in Hmatch.
  destruct Hmatch as (g' & E & Hg). injection E as <-.
  now apply trim_Forall.
Qed.

Lemma firstCapture_trimmed (patterns : list regex) (text fallback : jsstring) :
  trim fallback = fallback ->
  trim (Matcher.firstCapture patterns text fallback)
  = Matcher.firstCapture patterns text fallback.
Proof.
  intros Hfallback.
  induction patterns as [|p patterns IH]; cbn [Matcher.firstCapture];
    [exact Hfallback|].
  destruct (firstMatch p text) as [[[|c g]|]|]; try exact IH.
  apply trim_idempotent.
Qed.

Lemma fieldUnit_excludes (c : N) :
  negb (N.eqb c 10 || N.eqb c 44 || N.eqb c 46) = true ->
  c <> 10%N /\ c <> 44%N /\ c <> 46%N.
Proof.
  rewrite negb_true_iff, !orb_false_iff, !N.eqb_neq. tauto.
Qed.

Lemma letter_or_space_excludes (c : N) :
  isAsciiUpper c = true \/ isAsciiLower c = true \/ isWhiteSpace c = true ->
  c <> 44%N /\ c <> 46%N.
Proof.
  unfold isAsciiUpper, isAsciiLower, isWhiteSpace.
  rewrite !orb_true_iff, !between_iff, !N.eqb_eq. lia.
Qed.

Ltac group_units :=
  cbn [groupSatisfies];
  first
    [ split; [reflexivity | cbn [unitsSatisfy]]
    | left; split; [group_units | reflexivity]
    | right; group_units ].

Lemma titlePatterns_units :
  Forall (groupSatisfies (fun c => c <> 44%N /\ c <> 46%N))
    Matcher.titlePatterns.
Proof.
  unfold Matcher.titlePatterns, star, plus, opt, Matcher.whitespace,
    Matcher.fieldUnit, Matcher.capital, Matcher.small.
  repeat apply Forall_cons; try apply Forall_nil; group_units.
  - intros c Hc. now apply fieldUnit_excludes in Hc.
  - intros c Hc. now apply fieldUnit_excludes in Hc.
  - repeat match goal with |- _ /\ _ => split end;
      intros c Hc; apply letter_or_space_excludes; tauto.
Qed.

Lemma companyPatterns_units :
  Forall (groupSatisfies (fun c => c <> 10%N /\ c <> 44%N /\ c <> 46%N))
    Matcher.companyPatterns.
Proof.
  unfold Matcher.companyPatterns, star, plus, opt, Matcher.whitespace,
    Matcher.fieldUnit.
  repeat apply Forall_cons; try apply Forall_nil; group_units;
    intros c Hc; now apply fieldUnit_excludes in Hc.
Qed.

(** X11: the position title never contains a comma or a period, the company
    never contains a comma, a period or a line feed, and neither starts or
    ends with whitespace. *)
Theorem title_company_content (jobDescription : jsstring) :
  Forall (fun c => c <> 44%N /\ c <> 46%N)
    (Matcher.positionTitle jobDescription)
  /\ trim (Matcher.positionTitle jobDescription)
     = Matcher.positionTitle jobDescription
  /\ Forall (fun c => c <> 10%N /\ c <> 44%N /\ c <> 46%N)
       (Matcher.company jobDescription)
  /\ trim (Matcher.company jobDescription) = Matcher.company jobDescription.
Proof.
  unfold Matcher.positionTitle, Matcher.company.
  split; [|split; [|split]].
  - apply firstCapture_units; [apply titlePatterns_units|].
    apply Forall_forall. intros c Hc. vm_compute in Hc.
    repeat (destruct Hc as [<- | Hc]; [split; discriminate|]).
    contradiction.
  - apply firstCapture_trimmed. vm_compute. reflexivity.
  - apply firstCapture_units; [apply companyPatterns_units|].
    apply Forall_forall. intros c Hc. vm_compute in Hc.
    repeat (destruct Hc as [<- | Hc]; [repeat split; discriminate|]).
    contradiction.
  - apply firstCapture_trimmed. vm_compute. reflexivity.
Qed.

(** ** The upload route *)

(** X12: the route answers 400 exactly when the file or the job description
    is missing (an empty description counts as missing), and otherwise 200
    or 500.  A 200 carries the report of the analysis of the parsed text.
    With a text for job description, a 500 carries the server's own parse
    message for the type of the upload.  What the summarization service
    does never changes the status. *)
Theorem analyzeEndpoint_responses (pdf mammoth : list N -> option jsstring)
  (fetch : jsstring -> HF.Outcome) (req : Server.Request) :
  let response := Server.analyzeEndpoint pdf mammoth fetch req in
  (Server.status response = 400 <->
   Server.file req = None
   \/ Server.jobDescription req = Server.FieldAbsent
   \/ Server.jobDescription req = Server.FieldText [])
  /\ (Server.status response = 400 \/ Server.status response = 200
      \/ Server.status response = 500)
  /\ (Server.status response = 200 ->
      exists upload text resumeText rep,
        Server.file req = Some upload
        /\ Server.jobDescription req = Server.FieldText text
        /\ (if eqs (Server.mimetype upload) (lit "application/pdf")
            then pdf (Server.buffer upload)
            else mammoth (Server.buffer upload)) = Some resumeText
        /\ Matcher.analyzeWithHuggingFace fetch resumeText text
           = Returned rep
        /\ Server.body response = Server.ReportBody rep)
  /\ (forall upload text,
         Server.file req = Some upload ->
         Server.jobDescription req = Server.FieldText text ->
         Server.status response = 500 ->
         Server.body response
         = Server.ErrorBody (lit "Failed to analyze resume")
             (Some (Server.Message
                      (if eqs (Server.mimetype upload)
                            (lit "application/pdf")
                       then lit "Failed to parse PDF"
                       else lit "Failed to parse DOCX"))))
  /\ (forall fetch',
         Server.status (Server.analyzeEndpoint pdf mammoth fetch' req)
         = Server.status response).
Proof.
  intros response. subst response.
  unfold Server.analyzeEndpoint, Server.analyzeRoute.
  destruct req as [[upload|] description];
    cbn [Server.file Server.jobDescription].
  2: { cbn [Server.status Server.body].
       repeat split; auto; try discriminate. }
  destruct description as [|[|c text]|].
  - cbn [Server.status Server.body].
    repeat split; auto; try discriminate.
  - cbn [Server.status Server.body].
    repeat split; auto; try discriminate.
  - unfold Server.extractPDF, Server.extractDOCX.
    destruct (eqs (Server.mimetype upload) (lit "application/pdf"))
      eqn:Htype;
      [destruct (pdf (Server.buffer upload)) as [resumeText|] eqn:Hparse
      |destruct (mammoth (Server.buffer upload)) as [resumeText|]
         eqn:Hparse];
      rewrite ?analyze_returns;
      cbn [Server.status Server.body Server.failure];
      (split; [split; [discriminate|];
               intros [H | [H | H]]; discriminate H|]);
      (split; [auto|]);
      (split;
       [first
          [ discriminate
          | intros _; exists upload, (c :: text), resumeText; eexists;
            rewrite Htype, Hparse;
            split; [reflexivity|]; split; [reflexivity|];
            split; [reflexivity|];
            split; [apply analyze_returns | reflexivity] ]
       |]);
      (split;
       [intros u t Hu Ht; injection Hu as <-; rewrite Htype;
        first [discriminate | reflexivity]
       |intros fetch'; rewrite ?analyze_returns; reflexivity]).
  - unfold Server.extractPDF, Server.extractDOCX.
    destruct (eqs (Server.mimetype upload) (lit "application/pdf"));
      [destruct (pdf (Server.buffer upload)) as [resumeText|]
      |destruct (mammoth (Server.buffer upload)) as [resumeText|]];
      cbn [Server.status Server.body Server.failure];
      (split; [split; [discriminate|];
               intros [H | [H | H]]; discriminate H|]);
      (split; [auto|]);
      (split; [discriminate|]);
      (split; [intros u t _ Ht; discriminate Ht | reflexivity]).
Qed.

Lemma analyzeEndpoint_responses_witness :
  let req :=
    {| Server.file :=
         Some {| Server.mimetype := lit "application/pdf";
                 Server.buffer := [37; 80; 68; 70]%N |};
       Server.jobDescription := Server.FieldText (lit "Python wanted") |} in
  Server.body
    (Server.analyzeEndpoint (fun _ => None) (fun _ => Some (lit "python"))
       (fun _ => HF.FetchRejected) req)
  = Server.ErrorBody (lit "Failed to analyze resume")
      (Some (Server.Message (lit "Failed to parse PDF"))).
Proof.
  intros req.
  exact (proj1 (proj2 (proj2 (proj2
           (analyzeEndpoint_responses (fun _ => None)
              (fun _ => Some (lit "python")) (fun _ => HF.FetchRejected)
              req))))
           _ _ eq_refl eq_refl eq_refl).
Defined.

(** ** The keyword-only server *)

Lemma simple_words_units (text w : jsstring) :
  In w (Simple.words text) ->
  3 < length w
  /\ Forall (fun c => isAsciiLower c || isDigit c || N.eqb c 95 = true) w.
Proof.
  unfold Simple.words. rewrite filter_In, Nat.ltb_lt.
  intros [Htoken Hlen]. split; [exact Hlen|].
  revert Htoken. apply split_units; [constructor|].
  apply Forall_map.
  eapply Forall_impl; [|apply toLowerCase_not_upper].
  intros c Hup. cbv beta.
  destruct (isWordChar c || isWhiteSpace c) eqn:Hkept.
  - intros Hws. rewrite Hws, orb_false_r in Hkept.
    unfold isWordChar in Hkept. rewrite Hup in Hkept.
    destruct (isDigit c), (isAsciiLower c), (N.eqb c 95); simpl in *;
      congruence.
  - intros Hws. vm_compute in Hws. discriminate Hws.
Qed.

Lemma bump_keys (w k : jsstring) (entries : list (jsstring * Simple.Stored)) :
  In k (map fst (Simple.bump w entries)) <->
  k = w \/ In k (map fst entries).
Proof.
  induction entries as [|[k0 v] entries IH]; simpl.
  - intuition congruence.
  - destruct (eqs k0 w) eqn:E; simpl.
    + apply eqs_iff in E. subst k0. intuition congruence.
    + rewrite IH. intuition congruence.
Qed.

Lemma bump_NoDup (w : jsstring) (entries : list (jsstring * Simple.Stored)) :
  NoDup (map fst entries) -> NoDup (map fst (Simple.bump w entries)).
Proof.
  induction entries as [|[k0 v] entries IH]; simpl; intros H.
  - repeat constructor. intros [].
  - apply NoDup_cons_iff in H. destruct H as [Hk0 H].
    destruct (eqs k0 w) eqn:E; simpl.
    + now constructor.
    + constructor; [|now apply IH].
      rewrite bump_keys. intros [-> | Hin]; [|contradiction].
      assert (eqs w w = true) by now apply eqs_iff. congruence.
Qed.

Lemma wordCount_keys (ws : list jsstring) :
  NoDup (map fst (Simple.wordCount ws))
  /\ (forall k,
         In k (map fst (Simple.wordCount ws)) <->
         In k ws /\ k <> lit "__proto__").
Proof.
  unfold Simple.wordCount.
  set (kept := filter (fun w => negb (eqs w (lit "__proto__"))) ws).
  assert (Hkept : forall k, In k kept <-> In k ws /\ k <> lit "__proto__").
  { intros k. unfold kept. rewrite filter_In, negb_true_iff.
    rewrite <- eqs_iff.
    destruct (eqs k (lit "__proto__")); intuition congruence. }
  assert (Hgen : forall acc,
             NoDup (map fst acc) ->
             NoDup (map fst
                      (fold_left (fun a w => Simple.bump w a) kept acc))
             /\ (forall k,
                    In k (map fst
                            (fold_left (fun a w => Simple.bump w a) kept
                               acc))
                    <-> In k kept \/ In k (map fst acc))).
  { clear Hkept. induction kept as [|w kept IH]; intros acc Hacc; simpl.
    - split; [exact Hacc | tauto].
    - destruct (IH (Simple.bump w acc) (bump_NoDup w acc Hacc))
        as [Hnd Hin].
      split; [exact Hnd|]. intros k. rewrite Hin, bump_keys.
      intuition. }
  destruct (Hgen [] (NoDup_nil _)) as [Hnd Hin].
  split; [exact Hnd|]. intros k. rewrite Hin, <- Hkept. simpl. tauto.
Qed.

Lemma sortEntries_Permutation
  (engineSort : list (jsstring * Simple.Stored)
                -> list (jsstring * Simple.Stored))
  (entries : list (jsstring * Simple.Stored)) :
  Rearranges engineSort ->
  Permutation (Simple.sortEntries engineSort entries) entries.
Proof.
  intros Hengine. unfold Simple.sortEntries.
  destruct (Simple.consistent entries);
    [apply stableSort_Permutation | apply Hengine].
Qed.

Lemma bump_hasFunctionText (w : jsstring)
  (entries : list (jsstring * Simple.Stored)) :
  Simple.hasFunctionText entries = false ->
  eqs w (lit "constructor") = false ->
  Simple.hasFunctionText (Simple.bump w entries) = false.
Proof.
  intros Hentries Hw.
  induction entries as [|[k0 v] entries IH]; simpl in *.
  - unfold Simple.firstWrite. now rewrite Hw.
  - apply orb_false_iff in Hentries. destruct Hentries as [Hv Hrest].
    destruct (eqs k0 w); simpl.
    + rewrite Hrest. now destruct v.
    + rewrite Hv. now apply IH.
Qed.

Lemma ownEntries_hasFunctionText
  (entries : list (jsstring * Simple.Stored)) :
  Simple.hasFunctionText entries = false ->
  Simple.hasFunctionText (ownEntries entries) = false.
Proof.
  unfold Simple.hasFunctionText.
  intros H.
  destruct (existsb _ (ownEntries entries)) eqn:E; [|reflexivity].
  apply existsb_exists in E. destruct E as (e & He & Hfun).
  rewrite ownEntries_In in He.
  assert (existsb
            (fun e => match snd e with
                      | Simple.FunctionText _ => true
                      | Simple.Count _ => false
                      end) entries = true)
    by (apply existsb_exists; exists e; split; [exact He | exact Hfun]).
  congruence.
Qed.

(** Without the word [constructor] the comparator is consistent and the
    engine has no say in the order of the keywords. *)
Lemma simple_extractKeywords_engine_free
  (engineSort engineSort' : list (jsstring * Simple.Stored)
                            -> list (jsstring * Simple.Stored))
  (text : jsstring) :
  has (Simple.words text) (lit "constructor") = false ->
  Simple.extractKeywords engineSort text
  = Simple.extractKeywords engineSort' text.
Proof.
  intros Hnone. unfold Simple.extractKeywords, Simple.sortEntries.
  assert (Hcount : Simple.hasFunctionText
                     (ownEntries (Simple.wordCount (Simple.words text)))
                   = false).
  { apply ownEntries_hasFunctionText. unfold Simple.wordCount.
    assert (Hkept : Forall (fun w => eqs w (lit "constructor") = false)
                      (filter (fun w => negb (eqs w (lit "__proto__")))
                         (Simple.words text))).
    { apply Forall_forall. intros w Hw. apply filter_In in Hw.
      destruct Hw as [Hw _].
      destruct (eqs w (lit "constructor")) eqn:E; [|reflexivity].
      apply eqs_iff in E. subst w. apply has_iff in Hw. congruence. }
    assert (Hgen : forall acc,
               Simple.hasFunctionText acc = false ->
               Simple.hasFunctionText
                 (fold_left (fun a w => Simple.bump w a)
                    (filter (fun w => negb (eqs w (lit "__proto__")))
                       (Simple.words text)) acc) = false).
    { induction Hkept as [|w kept Hw Hkept IH]; intros acc Hacc; simpl.
      - exact Hacc.
      - apply IH. now apply bump_hasFunctionText. }
    now apply Hgen. }
  unfold Simple.consistent. now rewrite Hcount.
Qed.

(** The assignment under the inherited key goes through: the word
    [constructor] is a keyword like any other, here ahead of a word that
    occurs twice, in every engine. *)
Lemma simple_extractKeywords_constructor
  (engineSort : list (jsstring * Simple.Stored)
                -> list (jsstring * Simple.Stored)) :
  Simple.extractKeywords engineSort (lit "constructor python python")
  = [lit "constructor"; lit "python"].
Proof. vm_compute. reflexivity. Qed.

(** X13: the keyword-only extraction returns, for every text and whatever
    order the engine gives entries its comparator cannot rank, at most 20
    keywords, no keyword twice, and every keyword has more than 3 units,
    all of them small letters, digits or underscores. *)
Theorem simple_extractKeywords_shape
  (engineSort : list (jsstring * Simple.Stored)
                -> list (jsstring * Simple.Stored))
  (text : jsstring) :
  Rearranges engineSort ->
  length (Simple.extractKeywords engineSort text) <= 20
  /\ NoDup (Simple.extractKeywords engineSort text)
  /\ Forall
       (fun w =>
          3 < length w
          /\ Forall (fun c => isAsciiLower c || isDigit c || N.eqb c 95
                              = true) w)
       (Simple.extractKeywords engineSort text).
Proof.
  intros Hengine. unfold Simple.extractKeywords.
  set (entries := Simple.wordCount (Simple.words text)).
  destruct (wordCount_keys (Simple.words text)) as [Hnd Hin].
  fold entries in Hnd, Hin.
  assert (Hperm : Permutation
                    (map fst
                       (Simple.sortEntries engineSort (ownEntries entries)))
                    (map fst entries)).
  { apply Permutation_map.
    etransitivity; [now apply sortEntries_Permutation|].
    apply ownEntries_Permutation. }
  split; [|split].
  - rewrite length_map. apply firstn_le_length.
  - rewrite <- firstn_map. apply NoDup_firstn.
    eapply Permutation_NoDup; [apply Permutation_sym, Hperm | exact Hnd].
  - apply Forall_forall. intros w Hw. rewrite <- firstn_map in Hw.
    apply In_firstn in Hw.
    apply (Permutation_in _ Hperm), Hin in Hw.
    now apply simple_words_units with (text := text).
Qed.

Lemma simple_extractKeywords_shape_witness :
  let engineSort := stableSort Simple.countedBefore in
  let text := lit "Constructor: Python, Java; Python." in
  Simple.consistent (ownEntries (Simple.wordCount (Simple.words text)))
  = false
  /\ Simple.extractKeywords engineSort text
     = [lit "constructor"; lit "python"; lit "java"]
  /\ NoDup (Simple.extractKeywords engineSort text).
Proof.
  intros engineSort text.
  split; [vm_compute; reflexivity|]. split; [vm_compute; reflexivity|].
  apply (@simple_extractKeywords_shape engineSort text).
  intros l. apply stableSort_Permutation.
Defined.

Lemma simple_captureOr_returns (pattern : regex) (text fallback : jsstring) :
  capturing pattern = true ->
  exists value, Simple.captureOr pattern text fallback = Returned value.
Proof.
  intros Hcap. unfold Simple.captureOr.
  destruct (firstMatch pattern text) as [cap|] eqn:Hmatch; [|eauto].
  destruct (searchFrom_capturing _ _ _ Hcap Hmatch) as (c & g & ->).
  eauto.
Qed.

(** X14: the keyword-only analysis returns a report for every pair of
    texts, every service outcome, every random draw and every engine: no
    error is thrown.  The report shows at most 6 skills, each a keyword of
    both texts and none of them listed as missing, at most 4 missing
    keywords, each a keyword of the job description that is none of the
    resume, and a score of at most 95. *)
Theorem simple_analysis_report
  (engineSort : list (jsstring * Simple.Stored)
                -> list (jsstring * Simple.Stored))
  (fetch : jsstring -> HF.Outcome) (random : float)
  (resumeText jobDescription : jsstring) :
  let resumeKeywords := Simple.extractKeywords engineSort resumeText in
  let jdKeywords := Simple.extractKeywords engineSort jobDescription in
  exists rep,
    Simple.analyzeWithHuggingFace engineSort fetch random resumeText
      jobDescription = Returned rep
    /\ length (Report.skillsFound rep) <= 6
    /\ length (Report.missingKeywords rep) <= 4
    /\ Forall (fun k => In k resumeKeywords /\ In k jdKeywords
                        /\ ~ In k (Report.missingKeywords rep))
         (Report.skillsFound rep)
    /\ Forall (fun k => In k jdKeywords /\ ~ In k resumeKeywords)
         (Report.missingKeywords rep)
    /\ (Report.matchScore rep <= 95)%Z.
Proof.
  intros rk jk. unfold Simple.analyzeWithHuggingFace.
  fold rk jk.
  rewrite improvementsFrom_returns. cbn [bind catch].
  destruct (@simple_captureOr_returns Simple.titlePattern jobDescription
              (lit "Target Position") eq_refl) as (title & ->).
  destruct (@simple_captureOr_returns Simple.companyPattern jobDescription
              (lit "Target Company") eq_refl) as (comp & ->).
  cbn [bind catch].
  eexists. split; [reflexivity|].
  cbn [Report.skillsFound Report.missingKeywords Report.matchScore].
  assert (Hmissing : forall k,
            In k (firstn 4 (Simple.missingKeywords rk jk)) ->
            In k jk /\ ~ In k rk).
  { intros k Hk. unfold Simple.missingKeywords in Hk.
    do 2 apply In_firstn in Hk. apply filter_In in Hk.
    destruct Hk as [Hjk Hnot]. split; [exact Hjk|].
    apply negb_true_iff in Hnot. now apply has_false_iff. }
  split; [apply firstn_le_length|].
  split; [exact (firstn_le_length 4 (Simple.missingKeywords rk jk))|].
  split; [|split].
  - apply Forall_forall. intros k Hk. unfold Simple.matchedSkills in Hk.
    apply In_firstn, filter_In in Hk. destruct Hk as [Hrk Hjk].
    apply has_iff in Hjk. repeat split; try assumption.
    intros Hm. apply Hmissing in Hm. tauto.
  - apply Forall_forall. intros k Hk. now apply Hmissing.
  - apply simple_matchScore_le_95.
Qed.

(** The keyword-only score adds [Math.random() * 10] before rounding: the
    same two texts and the same service outcome, two draws, two scores and
    two levels, in every engine. *)
Lemma simple_score_depends_on_random
  (engineSort : list (jsstring * Simple.Stored)
                -> list (jsstring * Simple.Stored)) :
  let fetch := fun _ : jsstring => HF.FetchRejected in
  let resumeText := lit "Python developer" in
  let jobDescription := lit "Python engineer" in
  exists rep rep',
    Simple.analyzeWithHuggingFace engineSort fetch 0%float resumeText
      jobDescription = Returned rep
    /\ Simple.analyzeWithHuggingFace engineSort fetch 0.96875%float
         resumeText jobDescription = Returned rep'
    /\ Report.matchScore rep = 50%Z
    /\ Report.matchScore rep' = 60%Z
    /\ Report.matchLevel rep <> Report.matchLevel rep'.
Proof.
  intros fetch resumeText jobDescription.
  eexists. eexists.
  split; [vm_compute; reflexivity|]. split; [vm_compute; reflexivity|].
  repeat split; try reflexivity; vm_compute; discriminate.
Qed.

(** ** The cap at 30 keywords *)

Lemma StronglySorted_app_inv (A : Type) (R : A -> A -> Prop)
  (l1 l2 : list A) (a b : A) :
  StronglySorted R (l1 ++ l2) -> In a l1 -> In b l2 -> R a b.
Proof.
  induction l1 as [|x l1 IH]; simpl; intros H Ha Hb; [contradiction|].
  apply StronglySorted_inv in H. destruct H as [Hsorted Hx].
  destruct Ha as [-> | Ha]; [|now apply IH].
  rewrite Forall_forall in Hx. apply Hx, in_or_app. now right.
Qed.

Lemma ranked_keys (normalizedText : jsstring) :
  Permutation
    (map fst
       (stableSort Matcher.rankedBefore
          (ownEntries (Matcher.termCount normalizedText))))
    (Matcher.allTerms normalizedText).
Proof.
  rewrite <- termCount_keys. apply Permutation_map.
  etransitivity; [apply stableSort_Permutation|].
  apply ownEntries_Permutation.
Qed.

(** X15: when a text has at most 30 candidate terms, the keywords are
    exactly these candidates, reordered. *)
Theorem extractKeywords_keeps_all (text : jsstring) :
  length (Matcher.allTerms (Matcher.normalize text)) <= 30 ->
  Permutation (Matcher.extractKeywords text)
    (Matcher.allTerms (Matcher.normalize text)).
Proof.
  intros Hlen. unfold Matcher.extractKeywords.
  rewrite firstn_all2; [apply ranked_keys|].
  rewrite stableSort_length.
  rewrite (Permutation_length (ownEntries_Permutation _)).
  unfold Matcher.termCount. now rewrite length_map.
Qed.

Lemma extractKeywords_keeps_all_witness :
  Permutation (Matcher.extractKeywords (lit "Docker, then Python3"))
    (Matcher.allTerms (Matcher.normalize (lit "Docker, then Python3"))).
Proof.
  apply (extractKeywords_keeps_all (lit "Docker, then Python3")).
  vm_compute. lia.
Defined.

(** X16: a catalog term among the candidates is left out only when the 30
    keywords kept are all catalog terms. *)
Theorem extractKeywords_prefers_catalog (text k : jsstring) :
  In k (Matcher.allTerms (Matcher.normalize text)) ->
  isTechnicalTerm k = true ->
  ~ In k (Matcher.extractKeywords text) ->
  length (Matcher.extractKeywords text) = 30
  /\ Forall (fun a => isTechnicalTerm a = true)
       (Matcher.extractKeywords text).
Proof.
  unfold Matcher.extractKeywords.
  set (sorted := stableSort Matcher.rankedBefore
                   (ownEntries
                      (Matcher.termCount (Matcher.normalize text)))).
  intros Hk Htech Hout.
  apply (Permutation_in _ (Permutation_sym
                             (ranked_keys (Matcher.normalize text)))) in Hk.
  fold sorted in Hk. apply in_map_iff in Hk.
  destruct Hk as ([k' n] & E & He). cbn [fst] in E. subst k'.
  rewrite <- (firstn_skipn 30 sorted) in He. apply in_app_iff in He.
  destruct He as [He | He].
  { exfalso. apply Hout. apply in_map_iff. now exists (k, n). }
  split.
  - rewrite length_map, length_firstn. apply Nat.min_l.
    destruct (Nat.le_gt_cases 30 (length sorted)) as [H | H]; [exact H|].
    rewrite skipn_all2 in He by lia. contradiction.
  - apply Forall_map, Forall_forall. intros [a m] Ha. cbn [fst].
    assert (Hsorted : StronglySorted rankedNotAfter
                        (firstn 30 sorted ++ skipn 30 sorted)).
    { rewrite firstn_skipn. apply stableSort_ranked. }
    pose proof (StronglySorted_app_inv _ _ _ _ Hsorted Ha He) as Hrel.
    unfold rankedNotAfter, Matcher.rankedBefore in Hrel.
    cbn [fst snd] in Hrel. rewrite Htech in Hrel.
    destruct (isTechnicalTerm a); [reflexivity | discriminate Hrel].
Qed.

Lemma extractKeywords_prefers_catalog_witness :
  length
    (Matcher.extractKeywords
       (lit "javascript python java typescript ruby php swift kotlin rust scala matlab perl shell bash react angular vue svelte html css sass less webpack nextjs gatsby tailwind bootstrap jquery redux mobx nodejs"))
  = 30.
Proof.
  apply (@extractKeywords_prefers_catalog
           (lit "javascript python java typescript ruby php swift kotlin rust scala matlab perl shell bash react angular vue svelte html css sass less webpack nextjs gatsby tailwind bootstrap jquery redux mobx nodejs")
           (lit "nodejs")).
  - member.
  - vm_compute. reflexivity.
  - vm_compute. intros H.
    repeat (destruct H as [H | H]; [discriminate H|]). exact H.
Defined.

(** ** The upload filter *)

(** X17: for an upload that passed the file filter, the route reports
    ["Failed to parse DOCX"] only when the upload is a DOCX document. *)
Theorem docx_failure_is_docx (pdf mammoth : list N -> option jsstring)
  (fetch : jsstring -> HF.Outcome) (upload : Server.Upload)
  (description : Server.Field) (error : jsstring) :
  Server.fileFilter upload = true ->
  Server.body
    (Server.analyzeEndpoint pdf mammoth fetch
       {| Server.file := Some upload;
          Server.jobDescription := description |})
  = Server.ErrorBody error
      (Some (Server.Message (lit "Failed to parse DOCX"))) ->
  Server.mimetype upload
  = lit "application/vnd.openxmlformats-officedocument.wordprocessingml.document"
  /\ mammoth (Server.buffer upload) = None.
Proof.
  unfold Server.fileFilter, Server.allowedTypes. intros Hfilter.
  apply has_iff in Hfilter.
  unfold Server.analyzeEndpoint, Server.analyzeRoute.
  cbn [Server.file Server.jobDescription].
  assert (Hparse :
            forall (k : jsstring -> Server.Response),
              Server.body
                (match (if eqs (Server.mimetype upload)
                              (lit "application/pdf")
                        then Server.extractPDF pdf (Server.buffer upload)
                        else Server.extractDOCX mammoth
                               (Server.buffer upload)) with
                 | inr details => Server.failure details
                 | inl resumeText => k resumeText
                 end)
              = Server.ErrorBody error
                  (Some (Server.Message (lit "Failed to parse DOCX"))) ->
              (forall t, Server.body (k t)
                         <> Server.ErrorBody error
                              (Some (Server.Message
                                       (lit "Failed to parse DOCX")))) ->
              Server.mimetype upload
              = lit "application/vnd.openxmlformats-officedocument.wordprocessingml.document"
              /\ mammoth (Server.buffer upload) = None).
  { intros k Hbody Hk.
    unfold Server.extractPDF, Server.extractDOCX in Hbody.
    destruct (eqs (Server.mimetype upload) (lit "application/pdf"))
      eqn:Htype.
    - destruct (pdf (Server.buffer upload)); [now apply Hk in Hbody|].
      cbn in Hbody. discriminate Hbody.
    - destruct (mammoth (Server.buffer upload)); [now apply Hk in Hbody|].
      split; [|reflexivity].
      destruct Hfilter as [E | [E | []]]; [|now symmetry].
      rewrite <- E in Htype.
      assert (eqs (lit "application/pdf") (lit "application/pdf") = true)
        by now apply eqs_iff.
      congruence. }
  destruct description as [|[|c text]|]; cbn [Server.body];
    try discriminate.
  - intros Hbody.
    apply (Hparse
             (fun resumeText =>
                match Matcher.analyzeWithHuggingFace fetch resumeText
                        (c :: text) with
                | Returned results =>
                    {| Server.status := 200;
                       Server.body := Server.ReportBody results |}
                | Thrown e => Server.failure (Server.EngineMessage e)
                end) Hbody).
    intros t. rewrite analyze_returns. discriminate.
  - intros Hbody.
    apply (Hparse
             (fun _ => Server.failure (Server.EngineMessage TypeError))
             Hbody).
    intros t. cbn. discriminate.
Qed.

Lemma docx_failure_is_docx_witness :
  let upload :=
    {| Server.mimetype :=
         lit "application/vnd.openxmlformats-officedocument.wordprocessingml.document";
       Server.buffer := [80; 75; 3; 4]%N |} in
  (fun _ : list N => @None jsstring) (Server.buffer upload) = None.
Proof.
  intros upload.
  apply (@docx_failure_is_docx (fun _ => None) (fun _ => None)
           (fun _ => HF.FetchRejected) upload
           (Server.FieldText (lit "Python wanted"))
           (lit "Failed to analyze resume")); vm_compute; reflexivity.
Defined.
